(** * elephantops: the xiangqi position engine ([src/xiangqi.ts])

    A shallow embedding of [src/xiangqi.ts] and of the contracts of the
    modules it imports, followed by the properties of the position engine. *)

From Stdlib Require Import ZArith List Bool Lia FinFun.
Import ListNotations.
Local Open Scope Z_scope.
Local Open Scope bool_scope.

(** ** [types.ts]: colours, roles, pieces, moves, outcomes *)

(** Modelled from the spec: [types.ts] is absent; the two colours. *)
Inductive Color : Type := red | black.

(** Modelled from the spec: [types.ts] is absent; the seven roles. *)
Inductive Role : Type := king | advisor | elephant | horse | chariot | cannon | pawn.

(** Modelled from the spec: [types.ts] is absent; a square is an index into
    the 90-cell grid, the type is a plain number. *)
Abbreviation Square := Z.

(** Modelled from the spec: [types.ts] is absent; [{ color, role }]. *)
Record Piece : Type := mkPiece { color : Color; role : Role }.

(** Modelled from the spec: [types.ts] is absent; [{ from, to }]. *)
Record Move : Type := mkMove { from : Square; to : Square }.

(** Modelled from the spec: [types.ts] is absent;
    [{ winner: Color | undefined }]. The absence of an outcome is [None] at
    the type [option Outcome]. *)
Record Outcome : Type := mkOutcome { winner : option Color }.

(** Modelled from the spec: [types.ts] is absent; the two colours, red
    first, as the loops over [COLORS] visit them. *)
Definition COLORS : list Color := [red; black].

(** Modelled from the spec: [types.ts] is absent; the seven roles, in the
    order of [PIECE_SPECS]. *)
Definition ROLES : list Role := [king; advisor; elephant; horse; chariot; cannon; pawn].

(** The comparison [===] on colours. *)
Definition Color_eqb (a b : Color) : bool :=
  match a, b with
  | red, red | black, black => true
  | _, _ => false
  end.

(** The comparison [===] on roles. *)
Definition Role_eqb (a b : Role) : bool :=
  match a, b with
  | king, king | advisor, advisor | elephant, elephant | horse, horse
  | chariot, chariot | cannon, cannon | pawn, pawn => true
  | _, _ => false
  end.

(** ** [util.ts] *)

(** Modelled from the spec: [util.ts] is absent; the other colour. *)
Definition opposite (c : Color) : Color :=
  match c with red => black | black => red end.

(** Modelled from the spec: [util.ts] is absent; the grid has 9 files and 10
    ranks, a rank is 9 consecutive indices, red's home rank is 0..8. *)
Definition squareFile (sq : Square) : Z := sq mod 9.

(** Modelled from the spec: [util.ts] is absent; the rank of a square. *)
Definition squareRank (sq : Square) : Z := sq / 9.

(** ** [squareSet.ts]: the bitboard *)

Module SquareSet.

(** Modelled from the spec: [squareSet.ts] is absent; a set of squares is a
    90-bit board, bit [sq] standing for square [sq]. *)
Abbreviation t := Z.

(** Modelled from the spec: [squareSet.ts] is absent; the squares of the
    grid are the indices 0..89. *)
Definition validSquare (sq : Square) : bool := (0 <=? sq) && (sq <? 90).

(** Modelled from the spec: [squareSet.ts] is absent; the set of all 90
    squares. *)
Definition full : t := Z.ones 90.

(** Modelled from the spec: [squareSet.ts] is absent; [SquareSet.empty()]. *)
Definition empty : t := 0.

(** Modelled from the spec: [squareSet.ts] is absent; the constructor
    [new SquareSet(lo, mid, hi)] from three 32-bit words, lowest squares
    first, of which the grid uses the first 90 bits. *)
Definition make (lo mid hi : Z) : t :=
  Z.land (Z.lor (Z.lor (Z.land lo (Z.ones 32)) (Z.shiftl (Z.land mid (Z.ones 32)) 32))
                (Z.shiftl (Z.land hi (Z.ones 32)) 64))
         full.

(** Modelled from the spec: [squareSet.ts] is absent; the membership test,
    false outside the grid. *)
Definition has (s : t) (sq : Square) : bool := validSquare sq && Z.testbit s sq.

(** Modelled from the spec: [squareSet.ts] is absent; [with(square)], the
    set with one more square of the grid. *)
Definition with_ (s : t) (sq : Square) : t :=
  if validSquare sq then Z.setbit s sq else s.

(** Modelled from the spec: [squareSet.ts] is absent; [without(square)]. *)
Definition without (s : t) (sq : Square) : t :=
  if validSquare sq then Z.clearbit s sq else s.

(** Modelled from the spec: [squareSet.ts] is absent; set union. *)
Definition union (a b : t) : t := Z.lor a b.

(** Modelled from the spec: [squareSet.ts] is absent; set intersection. *)
Definition intersect (a b : t) : t := Z.land a b.

(** Modelled from the spec: [squareSet.ts] is absent; set difference. *)
Definition diff (a b : t) : t := Z.ldiff a b.

(** Modelled from the spec: [squareSet.ts] is absent; the complement within
    the grid. *)
Definition complement (a : t) : t := Z.ldiff full a.

(** Modelled from the spec: [squareSet.ts] is absent; no bit is set. *)
Definition isEmpty (s : t) : bool := s =? 0.

(** Modelled from the spec: [squareSet.ts] is absent; some bit is set. *)
Definition nonEmpty (s : t) : bool := negb (isEmpty s).

(** Modelled from the spec: [squareSet.ts] is absent; no common square. *)
Definition isDisjoint (a b : t) : bool := isEmpty (intersect a b).

(** Modelled from the spec: [squareSet.ts] is absent; a common square. *)
Definition intersects (a b : t) : bool := nonEmpty (intersect a b).

(** Modelled from the spec: [squareSet.ts] is absent; the same bitboard. *)
Definition equals (a b : t) : bool := a =? b.

(** The squares of the grid in ascending order. *)
Definition allSquares : list Square := map Z.of_nat (seq 0 90).

(** Modelled from the spec: [squareSet.ts] is absent; iteration over a set,
    in ascending square order. *)
Definition squares (s : t) : list Square := filter (has s) allSquares.

(** Modelled from the spec: [squareSet.ts] is absent; the cardinality. *)
Definition size (s : t) : Z := Z.of_nat (length (squares s)).

(** Modelled from the spec: [squareSet.ts] is absent; the lowest square, if
    any. *)
Definition first (s : t) : option Square := hd_error (squares s).

(** Modelled from the spec: [squareSet.ts] is absent; the highest square, if
    any. *)
Definition last (s : t) : option Square := hd_error (rev (squares s)).

(** Modelled from the spec: [squareSet.ts] is absent; the square of a set of
    exactly one square. *)
Definition singleSquare (s : t) : option Square :=
  match squares s with
  | [sq] => Some sq
  | _ => None
  end.

(** Modelled from the spec: [squareSet.ts] is absent;
    [SquareSet.fromSquares(...squares)]. *)
Definition fromSquares (l : list Square) : t := fold_left with_ l empty.

(** Modelled from the spec: [squareSet.ts] is absent;
    [SquareSet.backrank(color)] is the rank farthest from the side a colour
    starts on, the last rank its pawns reach: squares 81..89 for red, who
    starts on squares 0..8, and squares 0..8 for black. *)
Definition backrank (c : Color) : t :=
  match c with
  | red => Z.shiftl (Z.ones 9) 81
  | black => Z.ones 9
  end.

(** A bitboard of the 90-cell grid: no bit outside it. *)
Definition wf (s : t) : bool := (0 <=? s) && (s <? 2 ^ 90).

End SquareSet.

Abbreviation SquareSet := SquareSet.t.

(** ** [board.ts]: piece placement *)

Module Board.

(** Modelled from the spec: [board.ts] is absent; the board keeps one
    bitboard of all occupied squares, one per colour ([board[color]]) and
    one per role ([board[role]]). *)
Record t : Type := mk {
  occupied : SquareSet;
  byColor : Color -> SquareSet;
  byRole : Role -> SquareSet
}.

(** Modelled from the spec: [board.ts] is absent; the board without pieces. *)
Definition empty : t :=
  {| occupied := SquareSet.empty;
     byColor := fun _ => SquareSet.empty;
     byRole := fun _ => SquareSet.empty |}.

(** Modelled from the spec: [board.ts] is absent; the deep copy: the
    bitboards are immutable values, the copy has the same contents and
    shares nothing with the original. *)
Definition clone (b : t) : t :=
  {| occupied := occupied b; byColor := byColor b; byRole := byRole b |}.

(** Modelled from the spec: [board.ts] is absent; the colour whose bitboard
    holds the square. *)
Definition getColor (b : t) (sq : Square) : option Color :=
  find (fun c => SquareSet.has (byColor b c) sq) COLORS.

(** Modelled from the spec: [board.ts] is absent; the role whose bitboard
    holds the square. *)
Definition getRole (b : t) (sq : Square) : option Role :=
  find (fun r => SquareSet.has (byRole b r) sq) ROLES.

(** Modelled from the spec: [board.ts] is absent; [get(square)], the piece
    of a square if there is one. *)
Definition get (b : t) (sq : Square) : option Piece :=
  match getColor b sq with
  | None => None
  | Some c =>
      match getRole b sq with
      | None => None
      | Some r => Some (mkPiece c r)
      end
  end.

(** The assignment [this[color] = s]. *)
Definition updColor (f : Color -> SquareSet) (c : Color) (s : SquareSet) : Color -> SquareSet :=
  fun c' => if Color_eqb c' c then s else f c'.

(** The assignment [this[role] = s]. *)
Definition updRole (f : Role -> SquareSet) (r : Role) (s : SquareSet) : Role -> SquareSet :=
  fun r' => if Role_eqb r' r then s else f r'.

(** Modelled from the spec: [board.ts] is absent; [take(square)] removes the
    piece of a square and returns it, or [undefined]; here with the board
    after the call. *)
Definition take (b : t) (sq : Square) : option Piece * t :=
  match get b sq with
  | None => (None, b)
  | Some p =>
      (Some p,
       {| occupied := SquareSet.without (occupied b) sq;
          byColor := updColor (byColor b) (color p) (SquareSet.without (byColor b (color p)) sq);
          byRole := updRole (byRole b) (role p) (SquareSet.without (byRole b (role p)) sq) |})
  end.

(** Modelled from the spec: [board.ts] is absent; [set(square, piece)]
    places a piece and returns the piece that stood there, or [undefined];
    here with the board after the call. *)
Definition set (b : t) (sq : Square) (p : Piece) : option Piece * t :=
  let '(old, b1) := take b sq in
  (old,
   {| occupied := SquareSet.with_ (occupied b1) sq;
      byColor := updColor (byColor b1) (color p) (SquareSet.with_ (byColor b1 (color p)) sq);
      byRole := updRole (byRole b1) (role p) (SquareSet.with_ (byRole b1 (role p)) sq) |}).

(** Modelled from the spec: [board.ts] is absent; [pieces(color, role)]. *)
Definition pieces (b : t) (c : Color) (r : Role) : SquareSet :=
  SquareSet.intersect (byColor b c) (byRole b r).

(** Modelled from the spec: [board.ts] is absent; [kingOf(color)], the
    square of the one king of a colour, [undefined] when there is none. *)
Definition kingOf (b : t) (c : Color) : option Square :=
  SquareSet.singleSquare (pieces b c king).

(** Modelled from the spec: [board.ts] is absent; [boardEquals], the same
    bitboards. *)
Definition boardEquals (l r : t) : bool :=
  SquareSet.equals (occupied l) (occupied r)
  && forallb (fun c => SquareSet.equals (byColor l c) (byColor r c)) COLORS
  && forallb (fun x => SquareSet.equals (byRole l x) (byRole r x)) ROLES.

(** The board obtained from the empty one by setting pieces one by one. *)
Definition fromPieces (l : list (Square * Piece)) : t :=
  fold_left (fun b sp => snd (set b (fst sp) (snd sp))) l empty.

(** The invariant of the board store: every bitboard lies on the grid, the
    two colours partition the occupied squares and so do the seven roles. *)
Definition wf (b : t) : bool :=
  SquareSet.wf (occupied b)
  && forallb (fun c => SquareSet.wf (byColor b c)) COLORS
  && forallb (fun r => SquareSet.wf (byRole b r)) ROLES
  && SquareSet.equals (fold_right (fun c acc => SquareSet.union (byColor b c) acc) SquareSet.empty COLORS)
                      (occupied b)
  && SquareSet.equals (fold_right (fun r acc => SquareSet.union (byRole b r) acc) SquareSet.empty ROLES)
                      (occupied b)
  && forallb (fun c1 => forallb (fun c2 => Color_eqb c1 c2
                                          || SquareSet.isDisjoint (byColor b c1) (byColor b c2)) COLORS) COLORS
  && forallb (fun r1 => forallb (fun r2 => Role_eqb r1 r2
                                          || SquareSet.isDisjoint (byRole b r1) (byRole b r2)) ROLES) ROLES.

End Board.

Abbreviation Board := Board.t.

(** The invariant read square by square: what [Board.wf] checks on the
    bitboards, as facts about membership. *)
Record Board_inv (b : Board) : Prop := mkBoardInv {
  inv_wf_occupied : SquareSet.wf (Board.occupied b) = true;
  inv_wf_color : forall c, SquareSet.wf (Board.byColor b c) = true;
  inv_wf_role : forall r, SquareSet.wf (Board.byRole b r) = true;
  inv_color : forall sq,
    SquareSet.has (Board.occupied b) sq
    = existsb (fun c => SquareSet.has (Board.byColor b c) sq) COLORS;
  inv_role : forall sq,
    SquareSet.has (Board.occupied b) sq
    = existsb (fun r => SquareSet.has (Board.byRole b r) sq) ROLES;
  inv_color_excl : forall sq c1 c2,
    SquareSet.has (Board.byColor b c1) sq = true ->
    SquareSet.has (Board.byColor b c2) sq = true -> c1 = c2;
  inv_role_excl : forall sq r1 r2,
    SquareSet.has (Board.byRole b r1) sq = true ->
    SquareSet.has (Board.byRole b r2) sq = true -> r1 = r2
}.

(** ** [attacks.ts]: the geometry of the board *)

(** Modelled from the spec: [attacks.ts] is absent; the position engine only
    composes what the generators return, so they are an interface here: the
    tables of legal squares, the forward attack generators, the squares
    strictly between two squares and the step-validity predicate. *)
Class Attacks : Type := {
  KING_SQUARES : Color -> list Square;
  ADVISOR_SQUARES : Color -> list Square;
  ELEPHANT_SQUARES : Color -> list Square;
  attacks : Piece -> Square -> SquareSet -> SquareSet;
  between : Square -> Square -> SquareSet;
  chariotAttacks : Square -> SquareSet -> SquareSet;
  cannonAttacks : Square -> SquareSet -> SquareSet;
  elephantAttacks : Color -> Square -> SquareSet -> SquareSet;
  advisorAttacks : Color -> Square -> SquareSet;
  kingAttacks : Color -> Square -> SquareSet;
  isValidStep : Square -> Square -> bool
}.

(** ** [setup.ts] *)

Module Setup.

(** Modelled from the spec: [setup.ts] is absent; a raw board with the side
    to move and the two counters. *)
Record t : Type := mk {
  board : Board;
  turn : Color;
  halfmoves : Z;
  fullmoves : Z
}.

End Setup.

Abbreviation Setup := Setup.t.

(** ** [xiangqi.ts] *)

(** The error codes of an illegal setup. *)
Inductive IllegalSetup : Type :=
| Empty | OppositeCheck | Kings | Advisors | Elephants | Horses | Chariots
| Cannons | Pawns | FacingKings.

(** [Result<T, PositionError>]; a [PositionError] carries one error code. *)
Inductive Result (T : Type) : Type :=
| Ok (v : T)
| Err (e : IllegalSetup).
Arguments Ok {T} v.
Arguments Err {T} e.

(** [Result.map] *)
Definition Result_map {T U : Type} (f : T -> U) (r : Result T) : Result U :=
  match r with
  | Ok v => Ok (f v)
  | Err e => Err e
  end.

Module Context.

(** The king of the side to move, if any, and the pieces giving check. *)
Record t : Type := mk {
  king : option Square;
  checkers : SquareSet
}.

End Context.

Abbreviation Context := Context.t.

(** The board, the side to move, the halfmove clock and the fullmove
    counter. The counters are numbers of the source, integers here. *)
Record Position : Type := mkPosition {
  board : Board;
  turn : Color;
  halfmoves : Z;
  fullmoves : Z
}.

(** An entry of [PIECE_SPECS]. *)
Record PieceSpec : Type := mkPieceSpec {
  maxNum : Z;
  forbidden_squares : Color -> SquareSet;
  err : IllegalSetup
}.

(** For each square a horse may attack from: its offset and the offset of
    the square that must be free. *)
Definition HORSE_DIR_INV_BLOCKERS : list (Z * Z) :=
  [(-19, -10); (-17, -8); (-11, -10); (7, 8); (-7, -8); (11, 10); (17, 8); (19, 10)].

(** The offsets a pawn of a colour may attack a square from. *)
Definition PAWN_INV_DIRS (c : Color) (sq : Square) : list Z :=
  match c with
  | red => if sq >=? 45 then [-1; -9; 1] else [-9]
  | black => if sq <? 45 then [-1; 9; 1] else [9]
  end.

Section PositionEngine.

Context {G : Attacks}.

(** For each role: the most pieces a colour may have, the squares they may
    not stand on, and the error of a violation. *)
Definition PIECE_SPECS (r : Role) : PieceSpec :=
  match r with
  | king =>
      mkPieceSpec 1 (fun c => SquareSet.complement (SquareSet.fromSquares (KING_SQUARES c))) Kings
  | advisor =>
      mkPieceSpec 2 (fun c => SquareSet.complement (SquareSet.fromSquares (ADVISOR_SQUARES c))) Advisors
  | elephant =>
      mkPieceSpec 2 (fun c => SquareSet.complement (SquareSet.fromSquares (ELEPHANT_SQUARES c))) Elephants
  | horse => mkPieceSpec 2 (fun _ => SquareSet.empty) Horses
  | chariot => mkPieceSpec 2 (fun _ => SquareSet.empty) Chariots
  | cannon => mkPieceSpec 2 (fun _ => SquareSet.empty) Cannons
  | pawn =>
      mkPieceSpec 5
        (fun c =>
           match c with
           | red => SquareSet.complement (SquareSet.make 0xa8000000 0xfffff55a 0x03ffffff)
           | black => SquareSet.complement (SquareSet.make 0xffffffff 0x556abfff 0x0)
           end)
        Pawns
  end.

(** Squares from which a horse can attack [square]. *)
Definition horseInvAttacks (square : Square) (occupied : SquareSet) : SquareSet :=
  fold_left
    (fun range dir_blocker =>
       if negb (SquareSet.has occupied (square + snd dir_blocker)) then
         let dest := square + fst dir_blocker in
         if isValidStep square dest then SquareSet.with_ range dest else range
       else range)
    HORSE_DIR_INV_BLOCKERS SquareSet.empty.

(** Squares from which a pawn of colour [c] could attack [square]. *)
Definition pawnInvAttacks (c : Color) (square : Square) : SquareSet :=
  fold_left
    (fun range dir =>
       let dest := square + dir in
       if isValidStep square dest then SquareSet.with_ range dest else range)
    (PAWN_INV_DIRS c square) SquareSet.empty.

(** The union of the seven per-role intersections of [attacksTo], before
    the intersection with the attacker's bitboard. *)
Definition attacksToRoles (square : Square) (attacker : Color) (b : Board)
    (occupied : SquareSet) : SquareSet :=
  SquareSet.union
    (SquareSet.union
       (SquareSet.union
          (SquareSet.union
             (SquareSet.union
                (SquareSet.union
                   (SquareSet.intersect (chariotAttacks square occupied) (Board.byRole b chariot))
                   (SquareSet.intersect (horseInvAttacks square occupied) (Board.byRole b horse)))
                (SquareSet.intersect (elephantAttacks attacker square occupied) (Board.byRole b elephant)))
             (SquareSet.intersect (advisorAttacks attacker square) (Board.byRole b advisor)))
          (SquareSet.intersect (kingAttacks attacker square) (Board.byRole b king)))
       (SquareSet.intersect (cannonAttacks square occupied) (Board.byRole b cannon)))
    (SquareSet.intersect (pawnInvAttacks attacker square) (Board.byRole b pawn)).

(** All pieces of colour [attacker] attacking [square]. *)
Definition attacksTo (square : Square) (attacker : Color) (b : Board)
    (occupied : SquareSet) : SquareSet :=
  SquareSet.intersect (Board.byColor b attacker) (attacksToRoles square attacker b occupied).

Definition attackers (P : Position) (square : Square) (attacker : Color)
    (occupied : SquareSet) : SquareSet :=
  attacksTo square attacker (board P) occupied.

Definition ctx (P : Position) : Context :=
  match Board.kingOf (board P) (turn P) with
  | None => Context.mk None SquareSet.empty
  | Some k =>
      Context.mk (Some k) (attackers P k (opposite (turn P)) (Board.occupied (board P)))
  end.

(** [ctx = ctx || this.ctx()] *)
Definition ctxOr (c : option Context) (P : Position) : Context :=
  match c with
  | Some c' => c'
  | None => ctx P
  end.

Definition clone (P : Position) : Position :=
  mkPosition (Board.clone (board P)) (turn P) (halfmoves P) (fullmoves P).

Definition setupUnchecked (s : Setup) : Position :=
  mkPosition (Board.clone (Setup.board s)) (Setup.turn s) (Setup.halfmoves s) (Setup.fullmoves s).

(** The test of the inner loop of [validate]: too many pieces of a role,
    or one of them on a forbidden square. *)
Definition violatesSpec (b : Board) (c : Color) (r : Role) : bool :=
  let p := Board.pieces b c r in
  (SquareSet.size p >? maxNum (PIECE_SPECS r))
  || SquareSet.intersects p (forbidden_squares (PIECE_SPECS r) c).

(** The inner loop of [validate] over [ROLES], stopping at the first failure. *)
Fixpoint validateRoles (b : Board) (c : Color) (rs : list Role) : option IllegalSetup :=
  match rs with
  | [] => None
  | r :: rs' =>
      if violatesSpec b c r then Some (err (PIECE_SPECS r))
      else validateRoles b c rs'
  end.

(** The outer loop of [validate] over [COLORS]. *)
Fixpoint validateColors (b : Board) (cs : list Color) : option IllegalSetup :=
  match cs with
  | [] => None
  | c :: cs' =>
      match validateRoles b c ROLES with
      | Some e => Some e
      | None => validateColors b cs'
      end
  end.

Definition validate (P : Position) : Result unit :=
  if SquareSet.isEmpty (Board.occupied (board P)) then Err Empty
  else
    match Board.kingOf (board P) (turn P), Board.kingOf (board P) (opposite (turn P)) with
    | Some ourKing, Some otherKing =>
        if (squareFile ourKing =? squareFile otherKing)
           && SquareSet.isDisjoint (between ourKing otherKing) (Board.occupied (board P))
        then Err FacingKings
        else if SquareSet.nonEmpty (attackers P otherKing (turn P) (Board.occupied (board P)))
        then Err OppositeCheck
        else
          match validateColors (board P) COLORS with
          | Some e => Err e
          | None => Ok tt
          end
    | _, _ => Err Kings
    end.

Definition pseudoDests (P : Position) (piece : Piece) (square : Square) : SquareSet :=
  let pseudo := attacks piece square (Board.occupied (board P)) in
  SquareSet.diff pseudo (Board.byColor (board P) (turn P)).

(** The two kings are the first and the last square of [board.king]. With no
    king on the board both are [undefined], the file of [undefined] is not a
    number and the comparison of the two files is false. *)
Definition isFacingKings (P : Position) : bool :=
  match SquareSet.first (Board.byRole (board P) king),
        SquareSet.last (Board.byRole (board P) king) with
  | Some ourKing, Some otherKing =>
      (squareFile ourKing =? squareFile otherKing)
      && SquareSet.isDisjoint (between ourKing otherKing) (Board.occupied (board P))
  | _, _ => false
  end.

Definition isCheck (P : Position) (c : option Context) : bool :=
  SquareSet.nonEmpty (Context.checkers (ctxOr c P)).

(** The body of the loop of [dests]: a clone of the position on which the
    piece of [square] has been taken and set on [dest]. *)
Definition tryMove (P : Position) (square : Square) (piece : Piece) (dest : Square) : Position :=
  let newPos := clone P in
  let b1 := snd (Board.take (board newPos) square) in
  let b2 := snd (Board.set b1 dest piece) in
  mkPosition b2 (turn newPos) (halfmoves newPos) (fullmoves newPos).

Definition dests (P : Position) (square : Square) (c : option Context) : SquareSet :=
  match Board.get (board P) square with
  | None => SquareSet.empty
  | Some piece =>
      if negb (Color_eqb (color piece) (turn P)) then SquareSet.empty
      else
        let pseudo := pseudoDests P piece square in
        fold_left
          (fun acc dest =>
             let newPos := tryMove P square piece dest in
             if isCheck newPos None || isFacingKings newPos
             then SquareSet.without acc dest
             else acc)
          (SquareSet.squares pseudo) pseudo
  end.

Definition toSetup (P : Position) : Setup :=
  Setup.mk (Board.clone (board P)) (turn P)
           (Z.min (halfmoves P) 150)
           (Z.min (Z.max (fullmoves P) 1) 9999).

Definition hasInsufficientMaterial (P : Position) (c : Color) : bool :=
  if SquareSet.nonEmpty
       (SquareSet.union (Board.pieces (board P) c chariot) (Board.pieces (board P) c horse))
  then false
  else if SquareSet.nonEmpty (Board.pieces (board P) c cannon)
  then SquareSet.isEmpty (Board.byRole (board P) advisor)
       && SquareSet.isEmpty (Board.byRole (board P) pawn)
  else SquareSet.isEmpty
         (SquareSet.diff (Board.pieces (board P) c pawn) (SquareSet.backrank c)).

Definition isInsufficientMaterial (P : Position) : bool :=
  forallb (fun c => hasInsufficientMaterial P c) COLORS.

Definition hasDests (P : Position) (c : option Context) : bool :=
  let c' := ctxOr c P in
  existsb (fun square => SquareSet.nonEmpty (dests P square (Some c')))
          (SquareSet.squares (Board.byColor (board P) (turn P))).

Definition isLegal (P : Position) (m : Move) (c : option Context) : bool :=
  SquareSet.has (dests P (from m) c) (to m).

Definition is50Moves (P : Position) : bool := halfmoves P >=? 50.

Definition isEnd (P : Position) (c : option Context) : bool :=
  isInsufficientMaterial P || is50Moves P || negb (hasDests P c).

Definition isCheckmate (P : Position) (c : option Context) : bool :=
  let c' := ctxOr c P in
  SquareSet.nonEmpty (Context.checkers c') && negb (hasDests P (Some c')).

Definition isStalemate (P : Position) (c : option Context) : bool :=
  let c' := ctxOr c P in
  SquareSet.isEmpty (Context.checkers c') && negb (hasDests P (Some c')).

Definition outcome (P : Position) (c : option Context) : option Outcome :=
  let c' := ctxOr c P in
  if isCheckmate P (Some c') || isStalemate P (Some c')
  then Some (mkOutcome (Some (opposite (turn P))))
  else if isInsufficientMaterial P || is50Moves P
  then Some (mkOutcome None)
  else None.

(** The legal destinations of every piece of the side to move, in the
    insertion order of the [Map], which is ascending square order. *)
Definition allDests (P : Position) (c : option Context) : list (Square * SquareSet) :=
  let c' := ctxOr c P in
  map (fun square => (square, dests P square (Some c')))
      (SquareSet.squares (Board.byColor (board P) (turn P))).

(** [play] mutates the position; here it returns the position after it. *)
Definition play (P : Position) (m : Move) : Position :=
  let t := turn P in
  let halfmoves1 := halfmoves P + 1 in
  let fullmoves1 := if Color_eqb t black then fullmoves P + 1 else fullmoves P in
  let turn1 := opposite t in
  match Board.take (board P) (from m) with
  | (None, b1) => mkPosition b1 turn1 halfmoves1 fullmoves1
  | (Some piece, b1) =>
      match Board.set b1 (to m) piece with
      | (Some _, b2) => mkPosition b2 turn1 0 fullmoves1
      | (None, b2) => mkPosition b2 turn1 halfmoves1 fullmoves1
      end
  end.

(** [Xiangqi.fromSetup] *)
Definition fromSetup (s : Setup) : Result Position :=
  let pos := setupUnchecked s in
  Result_map (fun _ => pos) (validate pos).

Definition equalsIgnoreMoves (l r : Position) : bool :=
  Board.boardEquals (board l) (board r) && Color_eqb (turn l) (turn r).

(** A check by more than four pieces at once. *)
Definition isImpossibleCheck (pos : Position) : bool :=
  match Board.kingOf (board pos) (turn pos) with
  | None => false
  | Some ourKing =>
      let checkers :=
        attackers pos ourKing (opposite (turn pos)) (Board.occupied (board pos)) in
      if SquareSet.isEmpty checkers then false
      else SquareSet.size checkers >? 4
  end.

End PositionEngine.

(** ** A concrete geometry

    The generators of the game on the 9 by 10 grid, used to evaluate the
    engine on concrete positions. *)

Module Geometry.

Definition onSquares (p : Square -> bool) : SquareSet :=
  SquareSet.fromSquares (filter p SquareSet.allSquares).

Definition fileDist (a b : Square) : Z := Z.abs (squareFile a - squareFile b).
Definition rankDist (a b : Square) : Z := Z.abs (squareRank a - squareRank b).

(** Modelled from the spec: [attacks.ts] is absent; a step is valid when it
    lands on the grid and does not wrap around a board edge. *)
Definition isValidStep (orig dest : Square) : bool :=
  SquareSet.validSquare dest && (fileDist orig dest <=? 2).

(** Modelled from the spec: [attacks.ts] is absent; the squares strictly
    between two squares of one file or one rank. *)
Definition between (a b : Square) : SquareSet :=
  if negb (SquareSet.validSquare a && SquareSet.validSquare b) then SquareSet.empty
  else if squareFile a =? squareFile b then
    onSquares (fun s => (Z.min a b <? s) && (s <? Z.max a b) && (squareFile s =? squareFile a))
  else if squareRank a =? squareRank b then
    onSquares (fun s => (Z.min a b <? s) && (s <? Z.max a b))
  else SquareSet.empty.

(** The palace: files 3..5 of the three ranks next to the home rank. *)
Definition inPalace (c : Color) (sq : Square) : bool :=
  SquareSet.validSquare sq
  && (3 <=? squareFile sq) && (squareFile sq <=? 5)
  && match c with
     | red => squareRank sq <=? 2
     | black => 7 <=? squareRank sq
     end.

(** The river runs between ranks 4 and 5. *)
Definition ownSide (c : Color) (sq : Square) : bool :=
  SquareSet.validSquare sq
  && match c with
     | red => sq <? 45
     | black => 45 <=? sq
     end.

Definition KING_SQUARES (c : Color) : list Square :=
  match c with
  | red => [3; 4; 5; 12; 13; 14; 21; 22; 23]
  | black => [66; 67; 68; 75; 76; 77; 84; 85; 86]
  end.

Definition ADVISOR_SQUARES (c : Color) : list Square :=
  match c with
  | red => [3; 5; 13; 21; 23]
  | black => [66; 68; 76; 84; 86]
  end.

Definition ELEPHANT_SQUARES (c : Color) : list Square :=
  match c with
  | red => [2; 6; 18; 22; 26; 38; 42]
  | black => [47; 51; 63; 67; 71; 83; 87]
  end.

(** Modelled from the spec: [attacks.ts] is absent; one orthogonal step
    inside the palace. *)
Definition kingAttacks (c : Color) (sq : Square) : SquareSet :=
  onSquares (fun d => inPalace c sq && inPalace c d && (fileDist sq d + rankDist sq d =? 1)).

(** Modelled from the spec: [attacks.ts] is absent; one diagonal step
    inside the palace. *)
Definition advisorAttacks (c : Color) (sq : Square) : SquareSet :=
  onSquares (fun d => inPalace c sq && inPalace c d
                      && (fileDist sq d =? 1) && (rankDist sq d =? 1)).

(** Modelled from the spec: [attacks.ts] is absent; two diagonal steps on
    the own side of the river, the square in the middle being free. *)
Definition elephantAttacks (c : Color) (sq : Square) (occupied : SquareSet) : SquareSet :=
  onSquares (fun d => ownSide c sq && ownSide c d
                      && (fileDist sq d =? 2) && (rankDist sq d =? 2)
                      && negb (SquareSet.has occupied ((sq + d) / 2))).

(** Modelled from the spec: [attacks.ts] is absent; a horse goes one step
    along a file or rank, then one step diagonally outwards; the square of
    the first step must be free. *)
Definition horseAttacks (sq : Square) (occupied : SquareSet) : SquareSet :=
  onSquares (fun d =>
    SquareSet.validSquare sq
    && (((fileDist sq d =? 1) && (rankDist sq d =? 2)
         && negb (SquareSet.has occupied (sq + 9 * Z.sgn (squareRank d - squareRank sq))))
        || ((fileDist sq d =? 2) && (rankDist sq d =? 1)
            && negb (SquareSet.has occupied (sq + Z.sgn (squareFile d - squareFile sq)))))).

Definition sameLine (a b : Square) : bool :=
  SquareSet.validSquare a && SquareSet.validSquare b && negb (a =? b)
  && ((squareFile a =? squareFile b) || (squareRank a =? squareRank b)).

Definition blockers (a b : Square) (occupied : SquareSet) : Z :=
  SquareSet.size (SquareSet.intersect (between a b) occupied).

(** Modelled from the spec: [attacks.ts] is absent; a chariot slides along
    its file and rank up to and including the first occupied square. *)
Definition chariotAttacks (sq : Square) (occupied : SquareSet) : SquareSet :=
  onSquares (fun d => sameLine sq d && (blockers sq d occupied =? 0)).

(** Modelled from the spec: [attacks.ts] is absent; a cannon slides like a
    chariot over free squares and attacks the first piece behind exactly
    one screen. *)
Definition cannonAttacks (sq : Square) (occupied : SquareSet) : SquareSet :=
  onSquares (fun d =>
    sameLine sq d
    && (((blockers sq d occupied =? 0) && negb (SquareSet.has occupied d))
        || ((blockers sq d occupied =? 1) && SquareSet.has occupied d))).

(** Modelled from the spec: [attacks.ts] is absent; a pawn steps forward,
    and also sideways once it has crossed the river. *)
Definition pawnAttacks (c : Color) (sq : Square) : SquareSet :=
  onSquares (fun d =>
    SquareSet.validSquare sq
    && ((d =? match c with red => sq + 9 | black => sq - 9 end)
        || (negb (ownSide c sq) && (rankDist sq d =? 0) && (fileDist sq d =? 1)))).

(** Modelled from the spec: [attacks.ts] is absent; the squares a piece on
    [sq] reaches under the occupancy, by role. *)
Definition attacks (p : Piece) (sq : Square) (occupied : SquareSet) : SquareSet :=
  match role p with
  | king => kingAttacks (color p) sq
  | advisor => advisorAttacks (color p) sq
  | elephant => elephantAttacks (color p) sq occupied
  | horse => horseAttacks sq occupied
  | chariot => chariotAttacks sq occupied
  | cannon => cannonAttacks sq occupied
  | pawn => pawnAttacks (color p) sq
  end.

End Geometry.

Definition xiangqiAttacks : Attacks := {|
  KING_SQUARES := Geometry.KING_SQUARES;
  ADVISOR_SQUARES := Geometry.ADVISOR_SQUARES;
  ELEPHANT_SQUARES := Geometry.ELEPHANT_SQUARES;
  attacks := Geometry.attacks;
  between := Geometry.between;
  chariotAttacks := Geometry.chariotAttacks;
  cannonAttacks := Geometry.cannonAttacks;
  elephantAttacks := Geometry.elephantAttacks;
  advisorAttacks := Geometry.advisorAttacks;
  kingAttacks := Geometry.kingAttacks;
  isValidStep := Geometry.isValidStep
|}.

(** The starting layout, red at the low end of the grid. *)
Definition startPieces : list (Square * Piece) :=
  let back := [chariot; horse; elephant; advisor; king; advisor; elephant; horse; chariot] in
  let row (c : Color) (base : Z) :=
    map (fun ir => (base + Z.of_nat (fst ir), mkPiece c (snd ir)))
        (combine (seq 0 9) back) in
  row red 0
  ++ [(19, mkPiece red cannon); (25, mkPiece red cannon)]
  ++ map (fun f => (27 + f, mkPiece red pawn)) [0; 2; 4; 6; 8]
  ++ map (fun f => (54 + f, mkPiece black pawn)) [0; 2; 4; 6; 8]
  ++ [(64, mkPiece black cannon); (70, mkPiece black cannon)]
  ++ row black 81.

Definition startPosition : Position :=
  mkPosition (Board.fromPieces startPieces) red 0 1.


(** ** The properties in the words of the specification *)

(** The rank of [SquareSet.backrank] as a rank number: the rank farthest
    from the side a colour starts on. *)
Definition farRank (c : Color) : Z :=
  match c with red => 9 | black => 0 end.

(** The rank a colour starts on, its own back rank in the words of the
    specification: squares 0..8 for red, 81..89 for black. *)
Definition ownBackRank (c : Color) : SquareSet :=
  match c with
  | red => Z.ones 9
  | black => Z.shiftl (Z.ones 9) 81
  end.

(** A check over the grid: filtering the squares of the grid for two squares
    [a < b] gives [a] then [b]. *)
Definition pairFilterOk (a b : Z) : bool :=
  negb (a <? b)
  || match filter (fun x => (x =? a) || (x =? b)) SquareSet.allSquares with
     | [x; y] => (x =? a) && (y =? b)
     | _ => false
     end.

(** The hypothetical application of a move: the board on which the piece
    has been taken from [s] and set on [d]. *)
Definition movedBoard (b : Board) (s d : Square) (piece : Piece) : Board :=
  snd (Board.set (snd (Board.take b s)) d piece).

(** [hasInsufficientMaterial] as the specification words it: with a cannon
    and neither chariot nor horse, the side is insufficient when it has no
    advisor of its own and there is no pawn on the board; with none of the
    three, when all its pawns stand on its own back rank. *)
Definition hasInsufficientMaterial_spec (P : Position) (c : Color) : bool :=
  if SquareSet.nonEmpty
       (SquareSet.union (Board.pieces (board P) c chariot) (Board.pieces (board P) c horse))
  then false
  else if SquareSet.nonEmpty (Board.pieces (board P) c cannon)
  then SquareSet.isEmpty (Board.pieces (board P) c advisor)
       && SquareSet.isEmpty (Board.byRole (board P) pawn)
  else SquareSet.isEmpty
         (SquareSet.diff (Board.pieces (board P) c pawn) (ownBackRank c)).

(** The attackers of a square role by role, each role restricted to the
    pieces of the attacking colour. *)
Definition attacksToPieces {G : Attacks} (square : Square) (attacker : Color) (b : Board)
    (occupied : SquareSet) : SquareSet :=
  SquareSet.union
    (SquareSet.union
       (SquareSet.union
          (SquareSet.union
             (SquareSet.union
                (SquareSet.union
                   (SquareSet.intersect (chariotAttacks square occupied)
                                        (Board.pieces b attacker chariot))
                   (SquareSet.intersect (horseInvAttacks square occupied)
                                        (Board.pieces b attacker horse)))
                (SquareSet.intersect (elephantAttacks attacker square occupied)
                                     (Board.pieces b attacker elephant)))
             (SquareSet.intersect (advisorAttacks attacker square)
                                  (Board.pieces b attacker advisor)))
          (SquareSet.intersect (kingAttacks attacker square) (Board.pieces b attacker king)))
       (SquareSet.intersect (cannonAttacks square occupied) (Board.pieces b attacker cannon)))
    (SquareSet.intersect (pawnInvAttacks attacker square) (Board.pieces b attacker pawn)).

(** The attack bitboard that [attacksTo] intersects with the bitboard of a
    role: the squares from which a piece of that role and colour attacks
    [square]. *)
Definition attackFrom {G : Attacks} (r : Role) (attacker : Color) (square : Square)
    (occupied : SquareSet) : SquareSet :=
  match r with
  | chariot => chariotAttacks square occupied
  | horse => horseInvAttacks square occupied
  | elephant => elephantAttacks attacker square occupied
  | advisor => advisorAttacks attacker square
  | king => kingAttacks attacker square
  | cannon => cannonAttacks square occupied
  | pawn => pawnInvAttacks attacker square
  end.

(** [between] does not depend on the order of its two squares, checked on
    the squares of the grid. *)
Definition betweenSymmetric {G : Attacks} : bool :=
  forallb (fun a => forallb (fun b => SquareSet.equals (between a b) (between b a))
                            SquareSet.allSquares)
          SquareSet.allSquares.

(** The position with the other side to move. *)
Definition withTurn (P : Position) (t : Color) : Position :=
  mkPosition (board P) t (halfmoves P) (fullmoves P).

(** ** Positions used as examples *)

Definition position (l : list (Square * Piece)) (t : Color) (h f : Z) : Position :=
  mkPosition (Board.fromPieces l) t h f.

(** Red to move, not in check, and the king has no safe square. *)
Definition stalematePosition : Position :=
  position [(3, mkPiece red king); (85, mkPiece black king);
            (40, mkPiece black chariot); (17, mkPiece black chariot)] red 0 1.

(** Red to move, in check from two chariots, with no way out. *)
Definition checkmatePosition : Position :=
  position [(4, mkPiece red king); (85, mkPiece black king);
            (40, mkPiece black chariot); (0, mkPiece black chariot)] red 0 1.

(** Two lone kings. *)
Definition loneKingsPosition : Position :=
  position [(4, mkPiece red king); (84, mkPiece black king)] red 0 1.

(** Two kings on the e-file with nothing between them. *)
Definition facingKingsPosition : Position :=
  position [(4, mkPiece red king); (85, mkPiece black king)] red 0 1.

(** The starting layout with a sixth red pawn across the river. *)
Definition sixPawnsPosition : Position :=
  position (startPieces ++ [(46, mkPiece red pawn)]) red 0 1.

(** A black pawn on square 45, just below square 54. *)
Definition blackPawnPosition : Position :=
  position [(4, mkPiece red king); (84, mkPiece black king); (45, mkPiece black pawn)] red 0 1.

(** A red cannon, a black advisor, and no pawn on the board. *)
Definition cannonAdvisorPosition : Position :=
  position [(3, mkPiece red king); (85, mkPiece black king);
            (19, mkPiece red cannon); (76, mkPiece black advisor)] red 0 1.

(** A red cannon and the two kings. *)
Definition cannonOnlyPosition : Position :=
  position [(3, mkPiece red king); (85, mkPiece black king);
            (19, mkPiece red cannon)] red 0 1.

(** A red pawn on square 83, on the rank farthest from red's side. *)
Definition farRankPawnPosition : Position :=
  position [(3, mkPiece red king); (85, mkPiece black king);
            (83, mkPiece red pawn)] red 0 1.

(** A red pawn on square 31, where it starts. *)
Definition startRankPawnPosition : Position :=
  position [(3, mkPiece red king); (85, mkPiece black king);
            (31, mkPiece red pawn)] red 0 1.

(** Red to move; a black chariot on 49 between a black pawn on 58 and a red
    pawn on 40, all on the e-file. *)
Definition blackChariotPosition : Position :=
  position [(3, mkPiece red king); (86, mkPiece black king);
            (49, mkPiece black chariot); (58, mkPiece black pawn);
            (40, mkPiece red pawn)] red 0 1.

(** Red to move without a red king. *)
Definition noRedKingPosition : Position :=
  position [(85, mkPiece black king); (31, mkPiece red pawn); (49, mkPiece black chariot)] red 0 1.

(** * Properties *)

(** ** Square sets *)

Lemma validSquare_range (sq : Square) :
  SquareSet.validSquare sq = true <-> 0 <= sq < 90.
Proof. unfold SquareSet.validSquare. rewrite andb_true_iff. lia. Qed.

Lemma has_valid (s : SquareSet) (sq : Square) :
  SquareSet.has s sq = true -> SquareSet.validSquare sq = true.
Proof. unfold SquareSet.has. intros H. apply andb_true_iff in H. tauto. Qed.

Lemma has_empty (sq : Square) : SquareSet.has SquareSet.empty sq = false.
Proof.
  unfold SquareSet.has, SquareSet.empty. rewrite Z.testbit_0_l. apply andb_false_r.
Qed.

Lemma has_union (a b : SquareSet) (sq : Square) :
  SquareSet.has (SquareSet.union a b) sq = SquareSet.has a sq || SquareSet.has b sq.
Proof.
  unfold SquareSet.has, SquareSet.union. rewrite Z.lor_spec.
  destruct (SquareSet.validSquare sq); reflexivity.
Qed.

Lemma has_intersect (a b : SquareSet) (sq : Square) :
  SquareSet.has (SquareSet.intersect a b) sq = SquareSet.has a sq && SquareSet.has b sq.
Proof.
  unfold SquareSet.has, SquareSet.intersect. rewrite Z.land_spec.
  destruct (SquareSet.validSquare sq); reflexivity.
Qed.

Lemma has_diff (a b : SquareSet) (sq : Square) :
  SquareSet.has (SquareSet.diff a b) sq = SquareSet.has a sq && negb (SquareSet.has b sq).
Proof.
  unfold SquareSet.has, SquareSet.diff. rewrite Z.ldiff_spec.
  destruct (SquareSet.validSquare sq); reflexivity.
Qed.

Lemma has_with (s : SquareSet) (sq x : Square) :
  SquareSet.has (SquareSet.with_ s sq) x
  = (SquareSet.validSquare x && (x =? sq)) || SquareSet.has s x.
Proof.
  unfold SquareSet.has, SquareSet.with_.
  destruct (SquareSet.validSquare sq) eqn:Hsq.
  - destruct (SquareSet.validSquare x) eqn:Hx; simpl; [|reflexivity].
    apply validSquare_range in Hsq. rewrite Z.setbit_eqb by lia.
    rewrite (Z.eqb_sym sq x). reflexivity.
  - destruct (Z.eqb_spec x sq) as [->|_].
    + rewrite Hsq. reflexivity.
    + rewrite andb_false_r. reflexivity.
Qed.

Lemma has_without (s : SquareSet) (sq x : Square) :
  SquareSet.has (SquareSet.without s sq) x = SquareSet.has s x && negb (x =? sq).
Proof.
  unfold SquareSet.has, SquareSet.without.
  destruct (SquareSet.validSquare sq) eqn:Hsq.
  - destruct (SquareSet.validSquare x) eqn:Hx; simpl; [|reflexivity].
    rewrite Z.clearbit_eqb, (Z.eqb_sym sq x). reflexivity.
  - destruct (Z.eqb_spec x sq) as [->|_].
    + rewrite Hsq. reflexivity.
    + rewrite andb_true_r. reflexivity.
Qed.

Lemma In_allSquares (sq : Square) :
  In sq SquareSet.allSquares <-> SquareSet.validSquare sq = true.
Proof.
  unfold SquareSet.allSquares. rewrite in_map_iff, validSquare_range. split.
  - intros [n [<- Hn]]. apply in_seq in Hn. lia.
  - intros H. exists (Z.to_nat sq). split; [lia|]. apply in_seq. lia.
Qed.

(** Iterating over a set visits exactly its members. *)
Lemma In_squares (s : SquareSet) (sq : Square) :
  In sq (SquareSet.squares s) <-> SquareSet.has s sq = true.
Proof.
  unfold SquareSet.squares. rewrite filter_In, In_allSquares. split.
  - tauto.
  - intros H. split; [exact (has_valid _ _ H) | exact H].
Qed.

Lemma squares_ext (a b : SquareSet) :
  (forall sq, SquareSet.has a sq = SquareSet.has b sq) ->
  SquareSet.squares a = SquareSet.squares b.
Proof. intros H. unfold SquareSet.squares. apply filter_ext. exact H. Qed.

Lemma isEmpty_eq (s : SquareSet) : SquareSet.isEmpty s = true <-> s = SquareSet.empty.
Proof. unfold SquareSet.isEmpty, SquareSet.empty. apply Z.eqb_eq. Qed.

Lemma isEmpty_has (s : SquareSet) (sq : Square) :
  SquareSet.isEmpty s = true -> SquareSet.has s sq = false.
Proof. intros H. apply isEmpty_eq in H. subst s. apply has_empty. Qed.

Lemma nonEmpty_isEmpty (s : SquareSet) : SquareSet.nonEmpty s = negb (SquareSet.isEmpty s).
Proof. reflexivity. Qed.

Lemma wf_range (s : SquareSet) : SquareSet.wf s = true <-> 0 <= s < 2 ^ 90.
Proof. unfold SquareSet.wf. rewrite andb_true_iff. lia. Qed.

Lemma wf_testbit_high (s : SquareSet) (n : Z) :
  SquareSet.wf s = true -> 90 <= n -> Z.testbit s n = false.
Proof.
  intros H Hn. apply wf_range in H.
  rewrite <- (Z.mod_small s (2 ^ 90)) by exact H.
  apply Z.mod_pow2_bits_high. lia.
Qed.

Lemma wf_has_testbit (s : SquareSet) (n : Z) :
  SquareSet.wf s = true -> SquareSet.has s n = Z.testbit s n.
Proof.
  intros H. unfold SquareSet.has.
  destruct (SquareSet.validSquare n) eqn:Hv; simpl; [reflexivity|].
  destruct (Z.ltb_spec n 0).
  - symmetry. apply Z.testbit_neg_r. assumption.
  - symmetry. apply wf_testbit_high; [assumption|].
    unfold SquareSet.validSquare in Hv. apply andb_false_iff in Hv. lia.
Qed.

(** On the grid two sets with the same members are the same bitboard. *)
Lemma wf_ext (a b : SquareSet) :
  SquareSet.wf a = true -> SquareSet.wf b = true ->
  (forall sq, SquareSet.has a sq = SquareSet.has b sq) -> a = b.
Proof.
  intros Ha Hb H. apply Z.bits_inj. intros n.
  rewrite <- (wf_has_testbit a n Ha), <- (wf_has_testbit b n Hb). apply H.
Qed.

Lemma wf_isEmpty (s : SquareSet) :
  SquareSet.wf s = true ->
  (SquareSet.isEmpty s = true <-> forall sq, SquareSet.has s sq = false).
Proof.
  intros Hs. split.
  - intros H sq. apply isEmpty_has. exact H.
  - intros H. apply isEmpty_eq. apply wf_ext; [exact Hs | reflexivity |].
    intros sq. rewrite H, has_empty. reflexivity.
Qed.

Lemma wf_land_l (a b : SquareSet) :
  SquareSet.wf a = true -> SquareSet.wf (SquareSet.intersect a b) = true.
Proof.
  intros Ha. apply wf_range in Ha. apply wf_range. unfold SquareSet.intersect.
  assert (Hnn : 0 <= Z.land a b) by (apply Z.land_nonneg; lia).
  split; [exact Hnn|].
  destruct (Z.eq_dec (Z.land a b) 0) as [->|Hz]; [lia|].
  apply Z.log2_lt_cancel. rewrite Z.log2_pow2 by lia.
  destruct (Z.eq_dec a 0) as [->|Ha0]; [rewrite Z.land_0_l in Hz; lia|].
  assert (Hl : Z.log2 a < 90) by (apply Z.log2_lt_pow2; lia).
  assert (Z.log2 (Z.land a b) <= Z.log2 a); [|lia].
  destruct (Z.le_gt_cases (Z.log2 (Z.land a b)) (Z.log2 a)) as [|Hgt]; [assumption|].
  exfalso.
  assert (Hb : Z.testbit (Z.land a b) (Z.log2 (Z.land a b)) = true)
    by (apply Z.bit_log2; lia).
  rewrite Z.land_spec, (Z.bits_above_log2 a) in Hb by lia. discriminate.
Qed.

Lemma wf_diff (a b : SquareSet) :
  SquareSet.wf a = true -> SquareSet.wf (SquareSet.diff a b) = true.
Proof.
  intros Ha. unfold SquareSet.diff.
  assert (Hd : Z.ldiff a b = Z.land a (Z.ldiff a b)).
  { apply Z.bits_inj. intros n. rewrite Z.land_spec, Z.ldiff_spec.
    destruct (Z.testbit a n); reflexivity. }
  rewrite Hd. apply wf_land_l. exact Ha.
Qed.

Lemma wf_empty : SquareSet.wf SquareSet.empty = true.
Proof. reflexivity. Qed.

Lemma wf_union (a b : SquareSet) :
  SquareSet.wf a = true -> SquareSet.wf b = true ->
  SquareSet.wf (SquareSet.union a b) = true.
Proof.
  intros Ha Hb. apply wf_range in Ha. apply wf_range in Hb. apply wf_range.
  unfold SquareSet.union.
  assert (Hnn : 0 <= Z.lor a b) by (apply Z.lor_nonneg; lia).
  split; [exact Hnn|].
  destruct (Z.eq_dec (Z.lor a b) 0) as [->|Hz]; [lia|].
  apply Z.log2_lt_cancel. rewrite Z.log2_pow2, Z.log2_lor by lia.
  destruct (Z.eq_dec a 0) as [->|Ha0]; destruct (Z.eq_dec b 0) as [->|Hb0];
    try (change (Z.log2 0) with 0);
    repeat match goal with
           | H : ?x <> 0, R : 0 <= ?x < 2 ^ 90 |- _ =>
               assert (Z.log2 x < 90) by (apply Z.log2_lt_pow2; lia); clear H
           end; lia.
Qed.

Lemma wf_without (s : SquareSet) (sq : Square) :
  SquareSet.wf s = true -> SquareSet.wf (SquareSet.without s sq) = true.
Proof.
  intros H. unfold SquareSet.without.
  destruct (SquareSet.validSquare sq); [|exact H].
  unfold Z.clearbit. apply (wf_diff s _ H).
Qed.

Lemma wf_with (s : SquareSet) (sq : Square) :
  SquareSet.wf s = true -> SquareSet.wf (SquareSet.with_ s sq) = true.
Proof.
  intros H. unfold SquareSet.with_.
  destruct (SquareSet.validSquare sq) eqn:Hsq; [|exact H].
  unfold Z.setbit. apply (wf_union s _ H).
  apply validSquare_range in Hsq. apply wf_range.
  rewrite Z.shiftl_1_l. split; [apply Z.pow_nonneg; lia|].
  apply Z.pow_lt_mono_r; lia.
Qed.

Lemma squares_isEmpty (s : SquareSet) :
  SquareSet.isEmpty s = true -> SquareSet.squares s = [].
Proof.
  intros H. apply isEmpty_eq in H. subst s. reflexivity.
Qed.

(** ** The board store *)

Lemma In_COLORS (c : Color) : In c COLORS.
Proof. destruct c; simpl; tauto. Qed.

Lemma In_ROLES (r : Role) : In r ROLES.
Proof. destruct r; simpl; tauto. Qed.

Lemma Color_eqb_eq (a b : Color) : Color_eqb a b = true <-> a = b.
Proof. destruct a, b; simpl; split; congruence. Qed.

Lemma Role_eqb_eq (a b : Role) : Role_eqb a b = true <-> a = b.
Proof. destruct a, b; simpl; split; congruence. Qed.

Lemma Color_eqb_refl (a : Color) : Color_eqb a a = true.
Proof. destruct a; reflexivity. Qed.

Lemma Role_eqb_refl (a : Role) : Role_eqb a a = true.
Proof. destruct a; reflexivity. Qed.

Lemma isDisjoint_has (a b : SquareSet) (sq : Square) :
  SquareSet.isDisjoint a b = true ->
  SquareSet.has a sq = true -> SquareSet.has b sq = true -> False.
Proof.
  intros H Ha Hb. apply (isEmpty_has _ sq) in H.
  rewrite has_intersect, Ha, Hb in H. discriminate.
Qed.

(** The boolean check of the invariant gives the membership facts. *)
Lemma Board_wf_inv (b : Board) : Board.wf b = true -> Board_inv b.
Proof.
  unfold Board.wf. intros H.
  repeat match type of H with _ && _ = true => apply andb_true_iff in H; destruct H as [H ?] end.
  match goal with
  | Hc : forallb _ COLORS = true, Hr : forallb _ ROLES = true,
    Hcu : SquareSet.equals _ _ = true, Hru : SquareSet.equals _ _ = true,
    Hcd : forallb _ COLORS = true, Hrd : forallb _ ROLES = true |- _ =>
      rename Hc into Hwc; rename Hr into Hwr; rename Hcu into Hcol; rename Hru into Hrol;
      rename Hcd into Hcx; rename Hrd into Hrx
  end.
  apply Z.eqb_eq in Hcol, Hrol.
  constructor.
  - exact H.
  - intros c. exact (proj1 (forallb_forall _ _) Hwc c (In_COLORS c)).
  - intros r. exact (proj1 (forallb_forall _ _) Hwr r (In_ROLES r)).
  - intros sq. rewrite <- Hcol. simpl. rewrite !has_union, has_empty. reflexivity.
  - intros sq. rewrite <- Hrol. simpl. rewrite !has_union, has_empty. reflexivity.
  - intros sq c1 c2 H1 H2.
    pose proof (proj1 (forallb_forall _ _) Hcx c1 (In_COLORS c1)) as Hc1.
    pose proof (proj1 (forallb_forall _ _) Hc1 c2 (In_COLORS c2)) as Hc2.
    apply orb_true_iff in Hc2. destruct Hc2 as [He|Hd].
    + apply Color_eqb_eq. exact He.
    + exfalso. exact (isDisjoint_has _ _ sq Hd H1 H2).
  - intros sq r1 r2 H1 H2.
    pose proof (proj1 (forallb_forall _ _) Hrx r1 (In_ROLES r1)) as Hr1.
    pose proof (proj1 (forallb_forall _ _) Hr1 r2 (In_ROLES r2)) as Hr2.
    apply orb_true_iff in Hr2. destruct Hr2 as [He|Hd].
    + apply Role_eqb_eq. exact He.
    + exfalso. exact (isDisjoint_has _ _ sq Hd H1 H2).
Qed.

Lemma find_the {A : Type} (f : A -> bool) (l : list A) (x : A) :
  (forall y, f y = true -> y = x) -> In x l -> f x = true -> find f l = Some x.
Proof.
  intros Hu Hin Hx. induction l as [|a l IH]; simpl in *; [contradiction|].
  destruct (f a) eqn:Ha.
  - f_equal. apply Hu. exact Ha.
  - destruct Hin as [->|Hin]; [congruence|]. apply IH. exact Hin.
Qed.

Section BoardFacts.

Variable b : Board.
Hypothesis Hinv : Board_inv b.

Lemma getColor_Some (sq : Square) (c : Color) :
  Board.getColor b sq = Some c <-> SquareSet.has (Board.byColor b c) sq = true.
Proof.
  unfold Board.getColor. split.
  - intros H. apply find_some in H. tauto.
  - intros H. apply find_the; [|apply In_COLORS|exact H].
    intros y Hy. exact (inv_color_excl b Hinv sq y c Hy H).
Qed.

Lemma getRole_Some (sq : Square) (r : Role) :
  Board.getRole b sq = Some r <-> SquareSet.has (Board.byRole b r) sq = true.
Proof.
  unfold Board.getRole. split.
  - intros H. apply find_some in H. tauto.
  - intros H. apply find_the; [|apply In_ROLES|exact H].
    intros y Hy. exact (inv_role_excl b Hinv sq y r Hy H).
Qed.

(** A square holds the piece whose colour and role bitboards contain it. *)
Lemma get_Some (sq : Square) (p : Piece) :
  Board.get b sq = Some p
  <-> SquareSet.has (Board.byColor b (color p)) sq = true
      /\ SquareSet.has (Board.byRole b (role p)) sq = true.
Proof.
  unfold Board.get. destruct p as [c r]. simpl. split.
  - destruct (Board.getColor b sq) as [c'|] eqn:Hc; [|discriminate].
    destruct (Board.getRole b sq) as [r'|] eqn:Hr; [|discriminate].
    intros H. injection H as -> ->.
    split; [apply getColor_Some | apply getRole_Some]; assumption.
  - intros [Hc Hr]. apply getColor_Some in Hc. apply getRole_Some in Hr.
    rewrite Hc, Hr. reflexivity.
Qed.

Lemma get_occupied (sq : Square) :
  SquareSet.has (Board.occupied b) sq
  = match Board.get b sq with Some _ => true | None => false end.
Proof.
  destruct (Board.get b sq) as [p|] eqn:Hg.
  - apply get_Some in Hg. destruct Hg as [Hc _].
    rewrite (inv_color b Hinv). apply existsb_exists.
    exists (color p). split; [apply In_COLORS | exact Hc].
  - destruct (SquareSet.has (Board.occupied b) sq) eqn:Ho; [exfalso|reflexivity].
    pose proof Ho as Ho'.
    rewrite (inv_color b Hinv) in Ho. rewrite (inv_role b Hinv) in Ho'.
    apply existsb_exists in Ho. apply existsb_exists in Ho'.
    destruct Ho as [c [_ Hc]]. destruct Ho' as [r [_ Hr]].
    assert (Board.get b sq = Some (mkPiece c r)) by (apply get_Some; simpl; tauto).
    congruence.
Qed.

Lemma get_None_color (sq : Square) (c : Color) :
  Board.get b sq = None -> SquareSet.has (Board.byColor b c) sq = false.
Proof.
  intros Hg. pose proof (get_occupied sq) as Ho. rewrite Hg in Ho.
  rewrite (inv_color b Hinv) in Ho.
  destruct (SquareSet.has (Board.byColor b c) sq) eqn:Hc; [|reflexivity].
  assert (existsb (fun c => SquareSet.has (Board.byColor b c) sq) COLORS = true)
    by (apply existsb_exists; exists c; split; [apply In_COLORS | exact Hc]).
  congruence.
Qed.

Lemma get_None_role (sq : Square) (r : Role) :
  Board.get b sq = None -> SquareSet.has (Board.byRole b r) sq = false.
Proof.
  intros Hg. pose proof (get_occupied sq) as Ho. rewrite Hg in Ho.
  rewrite (inv_role b Hinv) in Ho.
  destruct (SquareSet.has (Board.byRole b r) sq) eqn:Hr; [|reflexivity].
  assert (existsb (fun r => SquareSet.has (Board.byRole b r) sq) ROLES = true)
    by (apply existsb_exists; exists r; split; [apply In_ROLES | exact Hr]).
  congruence.
Qed.

(** After [take] every bitboard has lost the square and nothing else. *)
Lemma take_fst (sq : Square) : fst (Board.take b sq) = Board.get b sq.
Proof. unfold Board.take. destruct (Board.get b sq); reflexivity. Qed.

Lemma take_color (sq : Square) (c : Color) (x : Square) :
  SquareSet.has (Board.byColor (snd (Board.take b sq)) c) x
  = SquareSet.has (Board.byColor b c) x && negb (x =? sq).
Proof.
  unfold Board.take. destruct (Board.get b sq) as [p|] eqn:Hg; simpl.
  - unfold Board.updColor. destruct (Color_eqb c (color p)) eqn:Hc.
    + apply Color_eqb_eq in Hc. subst c. apply has_without.
    + destruct (Z.eqb_spec x sq) as [->|_]; [|rewrite andb_true_r; reflexivity].
      rewrite andb_false_r.
      destruct (SquareSet.has (Board.byColor b c) sq) eqn:Hx; [|reflexivity].
      apply get_Some in Hg. destruct Hg as [Hp _].
      rewrite (inv_color_excl b Hinv sq c (color p) Hx Hp), Color_eqb_refl in Hc.
      discriminate.
  - destruct (Z.eqb_spec x sq) as [->|_]; [|rewrite andb_true_r; reflexivity].
    rewrite andb_false_r. apply get_None_color. exact Hg.
Qed.

Lemma take_role (sq : Square) (r : Role) (x : Square) :
  SquareSet.has (Board.byRole (snd (Board.take b sq)) r) x
  = SquareSet.has (Board.byRole b r) x && negb (x =? sq).
Proof.
  unfold Board.take. destruct (Board.get b sq) as [p|] eqn:Hg; simpl.
  - unfold Board.updRole. destruct (Role_eqb r (role p)) eqn:Hr.
    + apply Role_eqb_eq in Hr. subst r. apply has_without.
    + destruct (Z.eqb_spec x sq) as [->|_]; [|rewrite andb_true_r; reflexivity].
      rewrite andb_false_r.
      destruct (SquareSet.has (Board.byRole b r) sq) eqn:Hx; [|reflexivity].
      apply get_Some in Hg. destruct Hg as [_ Hp].
      rewrite (inv_role_excl b Hinv sq r (role p) Hx Hp), Role_eqb_refl in Hr.
      discriminate.
  - destruct (Z.eqb_spec x sq) as [->|_]; [|rewrite andb_true_r; reflexivity].
    rewrite andb_false_r. apply get_None_role. exact Hg.
Qed.

Lemma take_occupied (sq x : Square) :
  SquareSet.has (Board.occupied (snd (Board.take b sq))) x
  = SquareSet.has (Board.occupied b) x && negb (x =? sq).
Proof.
  unfold Board.take. destruct (Board.get b sq) as [p|] eqn:Hg; simpl.
  - apply has_without.
  - destruct (Z.eqb_spec x sq) as [->|_]; [|rewrite andb_true_r; reflexivity].
    rewrite andb_false_r, get_occupied, Hg. reflexivity.
Qed.

Lemma take_inv (sq : Square) : Board_inv (snd (Board.take b sq)).
Proof.
  constructor.
  - unfold Board.take. destruct (Board.get b sq); simpl;
      [apply wf_without|]; apply (inv_wf_occupied b Hinv).
  - intros c. unfold Board.take. destruct (Board.get b sq) as [p|]; simpl;
      [|apply (inv_wf_color b Hinv)].
    unfold Board.updColor. destruct (Color_eqb c (color p));
      [apply wf_without|]; apply (inv_wf_color b Hinv).
  - intros r. unfold Board.take. destruct (Board.get b sq) as [p|]; simpl;
      [|apply (inv_wf_role b Hinv)].
    unfold Board.updRole. destruct (Role_eqb r (role p));
      [apply wf_without|]; apply (inv_wf_role b Hinv).
  - intros x. simpl. rewrite take_occupied, !take_color, (inv_color b Hinv). simpl.
    destruct (x =? sq); rewrite ?andb_true_r, ?andb_false_r; reflexivity.
  - intros x. simpl. rewrite take_occupied, !take_role, (inv_role b Hinv). simpl.
    destruct (x =? sq); rewrite ?andb_true_r, ?andb_false_r; reflexivity.
  - intros x c1 c2. rewrite !take_color. intros H1 H2.
    apply andb_true_iff in H1, H2.
    apply (inv_color_excl b Hinv x); tauto.
  - intros x r1 r2. rewrite !take_role. intros H1 H2.
    apply andb_true_iff in H1, H2.
    apply (inv_role_excl b Hinv x); tauto.
Qed.

End BoardFacts.

Lemma get_ext (b b' : Board) (x x' : Square) :
  (forall c, SquareSet.has (Board.byColor b c) x = SquareSet.has (Board.byColor b' c) x') ->
  (forall r, SquareSet.has (Board.byRole b r) x = SquareSet.has (Board.byRole b' r) x') ->
  Board.get b x = Board.get b' x'.
Proof.
  intros Hc Hr. unfold Board.get, Board.getColor, Board.getRole. simpl.
  rewrite !Hc, !Hr. reflexivity.
Qed.

Section BoardSetFacts.

Variable b : Board.
Hypothesis Hinv : Board_inv b.

Lemma get_take (sq x : Square) :
  Board.get (snd (Board.take b sq)) x = if x =? sq then None else Board.get b x.
Proof.
  destruct (Z.eqb_spec x sq) as [->|Hne].
  - pose proof (get_occupied _ (take_inv b Hinv sq) sq) as Ho.
    rewrite (take_occupied b Hinv), Z.eqb_refl, andb_false_r in Ho.
    destruct (Board.get (snd (Board.take b sq)) sq); [discriminate|reflexivity].
  - apply get_ext; intros; [rewrite (take_color b Hinv) | rewrite (take_role b Hinv)];
      (replace (x =? sq) with false by (symmetry; apply Z.eqb_neq; exact Hne));
      apply andb_true_r.
Qed.

Lemma set_fst (sq : Square) (p : Piece) : fst (Board.set b sq p) = Board.get b sq.
Proof.
  unfold Board.set. rewrite <- (take_fst b sq).
  destruct (Board.take b sq). reflexivity.
Qed.

Lemma set_color (sq : Square) (p : Piece) (c : Color) (x : Square) :
  SquareSet.has (Board.byColor (snd (Board.set b sq p)) c) x
  = (SquareSet.validSquare x && (x =? sq) && Color_eqb c (color p))
    || (SquareSet.has (Board.byColor b c) x && negb (x =? sq)).
Proof.
  unfold Board.set. pose proof (take_color b Hinv sq) as Ht.
  destruct (Board.take b sq) as [old b1]. simpl in *. unfold Board.updColor.
  destruct (Color_eqb c (color p)) eqn:Hc.
  - apply Color_eqb_eq in Hc. subst c. rewrite has_with, Ht, andb_true_r. reflexivity.
  - rewrite Ht, andb_false_r. reflexivity.
Qed.

Lemma set_role (sq : Square) (p : Piece) (r : Role) (x : Square) :
  SquareSet.has (Board.byRole (snd (Board.set b sq p)) r) x
  = (SquareSet.validSquare x && (x =? sq) && Role_eqb r (role p))
    || (SquareSet.has (Board.byRole b r) x && negb (x =? sq)).
Proof.
  unfold Board.set. pose proof (take_role b Hinv sq) as Ht.
  destruct (Board.take b sq) as [old b1]. simpl in *. unfold Board.updRole.
  destruct (Role_eqb r (role p)) eqn:Hr.
  - apply Role_eqb_eq in Hr. subst r. rewrite has_with, Ht, andb_true_r. reflexivity.
  - rewrite Ht, andb_false_r. reflexivity.
Qed.

Lemma set_occupied (sq : Square) (p : Piece) (x : Square) :
  SquareSet.has (Board.occupied (snd (Board.set b sq p))) x
  = (SquareSet.validSquare x && (x =? sq))
    || (SquareSet.has (Board.occupied b) x && negb (x =? sq)).
Proof.
  unfold Board.set. pose proof (take_occupied b Hinv sq) as Ht.
  destruct (Board.take b sq) as [old b1]. simpl in *.
  rewrite has_with, Ht. reflexivity.
Qed.

Lemma set_inv (sq : Square) (p : Piece) : Board_inv (snd (Board.set b sq p)).
Proof.
  pose proof (take_inv b Hinv sq) as Ht.
  constructor.
  - unfold Board.set. destruct (Board.take b sq) as [old b1]. simpl in *.
    apply wf_with, (inv_wf_occupied _ Ht).
  - intros c. unfold Board.set. destruct (Board.take b sq) as [old b1]. simpl in *.
    unfold Board.updColor. destruct (Color_eqb c (color p));
      [apply wf_with|]; apply (inv_wf_color _ Ht).
  - intros r. unfold Board.set. destruct (Board.take b sq) as [old b1]. simpl in *.
    unfold Board.updRole. destruct (Role_eqb r (role p));
      [apply wf_with|]; apply (inv_wf_role _ Ht).
  - intros x. simpl. rewrite set_occupied, !set_color, (inv_color b Hinv). simpl.
    destruct (x =? sq); simpl; rewrite ?andb_true_r, ?andb_false_r, ?orb_false_r;
      [|reflexivity].
    destruct (color p), (SquareSet.validSquare x); reflexivity.
  - intros x. simpl. rewrite set_occupied, !set_role, (inv_role b Hinv). simpl.
    destruct (x =? sq); simpl; rewrite ?andb_true_r, ?andb_false_r, ?orb_false_r;
      [|reflexivity].
    destruct (role p), (SquareSet.validSquare x); reflexivity.
  - intros x c1 c2. rewrite !set_color. destruct (x =? sq); simpl;
      rewrite ?andb_true_r, ?andb_false_r, ?orb_false_r.
    + intros H1 H2. apply andb_true_iff in H1, H2.
      destruct H1 as [_ H1]. destruct H2 as [_ H2].
      apply Color_eqb_eq in H1, H2. congruence.
    + apply (inv_color_excl b Hinv).
  - intros x r1 r2. rewrite !set_role. destruct (x =? sq); simpl;
      rewrite ?andb_true_r, ?andb_false_r, ?orb_false_r.
    + intros H1 H2. apply andb_true_iff in H1, H2.
      destruct H1 as [_ H1]. destruct H2 as [_ H2].
      apply Role_eqb_eq in H1, H2. congruence.
    + apply (inv_role_excl b Hinv).
Qed.

(** After [set] the square holds the piece and every other square is as
    before. *)
Lemma get_set (sq : Square) (p : Piece) (x : Square) :
  SquareSet.validSquare sq = true ->
  Board.get (snd (Board.set b sq p)) x = if x =? sq then Some p else Board.get b x.
Proof.
  intros Hv. destruct (Z.eqb_spec x sq) as [->|Hne].
  - apply (get_Some _ (set_inv sq p)).
    rewrite set_color, set_role, Hv, Z.eqb_refl, Color_eqb_refl, Role_eqb_refl.
    split; reflexivity.
  - apply get_ext; intros; [rewrite set_color | rewrite set_role];
      (replace (x =? sq) with false by (symmetry; apply Z.eqb_neq; exact Hne));
      rewrite andb_false_r, andb_true_r; reflexivity.
Qed.

End BoardSetFacts.

(** ** Check, checkmate, stalemate and the outcome *)

Lemma existsb_false {A : Type} (f : A -> bool) (l : list A) (x : A) :
  existsb f l = false -> In x l -> f x = false.
Proof.
  intros H Hin. destruct (f x) eqn:Hx; [|reflexivity].
  assert (existsb f l = true) by (apply existsb_exists; exists x; tauto).
  congruence.
Qed.

Lemma kingOf_no_king (b : Board) (c : Color) :
  SquareSet.isEmpty (Board.pieces b c king) = true -> Board.kingOf b c = None.
Proof.
  intros H. unfold Board.kingOf, SquareSet.singleSquare.
  rewrite (squares_isEmpty _ H). reflexivity.
Qed.

Section GameEnd.

Context {G : Attacks}.

Lemma ctx_no_king (P : Position) :
  Board.kingOf (board P) (turn P) = None -> ctx P = Context.mk None SquareSet.empty.
Proof. intros H. unfold ctx. rewrite H. reflexivity. Qed.

(** The context argument is a cache: passing the context of the position
    is the same as passing none. *)
Lemma isCheckmate_ctx (P : Position) :
  isCheckmate P (Some (ctx P)) = isCheckmate P None.
Proof. unfold isCheckmate, ctxOr. reflexivity. Qed.

Lemma isStalemate_ctx (P : Position) :
  isStalemate P (Some (ctx P)) = isStalemate P None.
Proof. unfold isStalemate, ctxOr. reflexivity. Qed.

Lemma no_dests_all_empty (P : Position) (c : Context) :
  hasDests P (Some c) = false ->
  forall sq, SquareSet.has (Board.byColor (board P) (turn P)) sq = true ->
             forall c', SquareSet.isEmpty (dests P sq c') = true.
Proof.
  unfold hasDests. simpl. intros H sq Hsq c'.
  apply (proj2 (In_squares _ _)) in Hsq.
  pose proof (existsb_false _ _ sq H Hsq) as Hd. simpl in Hd.
  apply negb_false_iff in Hd. exact Hd.
Qed.

(** C10. When the side to move has no king on the board, the context has an
    undefined king and no checkers, and neither [isCheck] nor [isCheckmate]
    reports anything: both are false. *)
Theorem missing_king_is_not_check (P : Position) :
  SquareSet.isEmpty (Board.pieces (board P) (turn P) king) = true ->
  ctx P = Context.mk None SquareSet.empty
  /\ isCheck P None = false
  /\ isCheckmate P None = false.
Proof.
  intros H. pose proof (ctx_no_king P (kingOf_no_king _ _ H)) as Hc.
  split; [exact Hc|]. unfold isCheck, isCheckmate, ctxOr. rewrite Hc. simpl.
  split; reflexivity.
Qed.

(** C8. Checkmate and stalemate never hold together, and when one of them
    holds every entry of [allDests], one for each square of the side to
    move, is the empty set. *)
Theorem checkmate_stalemate_exclusive (P : Position) (c : option Context) :
  isCheckmate P c && isStalemate P c = false
  /\ (isCheckmate P c = true \/ isStalemate P c = true ->
      map fst (allDests P c) = SquareSet.squares (Board.byColor (board P) (turn P))
      /\ Forall (fun e => SquareSet.isEmpty (snd e) = true) (allDests P c)).
Proof.
  split.
  - unfold isCheckmate, isStalemate, SquareSet.nonEmpty.
    destruct (SquareSet.isEmpty (Context.checkers (ctxOr c P))); simpl;
      [reflexivity | apply andb_false_r].
  - intros H.
    assert (Hd : hasDests P (Some (ctxOr c P)) = false).
    { unfold isCheckmate, isStalemate in H.
      destruct H as [H|H]; apply andb_true_iff in H; destruct H as [_ H];
        apply negb_true_iff in H; exact H. }
    split.
    + unfold allDests. rewrite map_map. simpl. apply map_id.
    + unfold allDests. cbv zeta. rewrite Forall_map. cbn [snd].
      apply Forall_forall. intros sq Hin.
      exact (no_dests_all_empty P _ Hd sq (proj1 (In_squares _ _) Hin) _).
Qed.

(** C9. The outcome: the side not to move wins a checkmate or a stalemate;
    otherwise the game is drawn when both sides have insufficient material
    or the halfmove clock has reached 50; otherwise there is no outcome. *)
Theorem outcome_cases (P : Position) :
  (isCheckmate P None = true \/ isStalemate P None = true ->
   outcome P None = Some (mkOutcome (Some (opposite (turn P)))))
  /\ (isCheckmate P None = false -> isStalemate P None = false ->
      (hasInsufficientMaterial P red = true /\ hasInsufficientMaterial P black = true)
      \/ 50 <= halfmoves P ->
      outcome P None = Some (mkOutcome None))
  /\ (isCheckmate P None = false -> isStalemate P None = false ->
      ~ (hasInsufficientMaterial P red = true /\ hasInsufficientMaterial P black = true) ->
      halfmoves P < 50 ->
      outcome P None = None).
Proof.
  unfold outcome. simpl ctxOr. rewrite isCheckmate_ctx, isStalemate_ctx.
  unfold isInsufficientMaterial, is50Moves. simpl forallb. rewrite andb_true_r.
  repeat split.
  - intros [H|H]; rewrite H; [|rewrite orb_true_r]; reflexivity.
  - intros Hc Hs Hd. rewrite Hc, Hs. simpl.
    destruct Hd as [[Hr Hb]|Hh].
    + rewrite Hr, Hb. reflexivity.
    + replace (halfmoves P >=? 50) with true by (symmetry; apply Z.geb_le; lia).
      rewrite orb_true_r. reflexivity.
  - intros Hc Hs Hm Hh. rewrite Hc, Hs. simpl.
    replace (halfmoves P >=? 50) with false
      by (symmetry; rewrite Z.geb_leb; apply Z.leb_gt; lia).
    rewrite orb_false_r.
    destruct (hasInsufficientMaterial P red), (hasInsufficientMaterial P black);
      simpl; try reflexivity.
    exfalso. apply Hm. split; reflexivity.
Qed.

End GameEnd.

Lemma missing_king_is_not_check_witness :
  SquareSet.isEmpty
    (Board.pieces (board noRedKingPosition) (turn noRedKingPosition) king) = true
  /\ @isCheck xiangqiAttacks noRedKingPosition None = false
  /\ @isCheckmate xiangqiAttacks noRedKingPosition None = false.
Proof.
  assert (H : SquareSet.isEmpty
                (Board.pieces (board noRedKingPosition) (turn noRedKingPosition) king) = true)
    by (vm_compute; reflexivity).
  split; [exact H|].
  exact (proj2 (@missing_king_is_not_check xiangqiAttacks noRedKingPosition H)).
Defined.

Lemma checkmate_stalemate_exclusive_witness :
  (@isStalemate xiangqiAttacks stalematePosition None = true
   /\ Forall (fun e => SquareSet.isEmpty (snd e) = true)
             (@allDests xiangqiAttacks stalematePosition None))
  /\ (@isCheckmate xiangqiAttacks checkmatePosition None = true
      /\ Forall (fun e => SquareSet.isEmpty (snd e) = true)
                (@allDests xiangqiAttacks checkmatePosition None)).
Proof.
  assert (Hs : @isStalemate xiangqiAttacks stalematePosition None = true)
    by (vm_compute; reflexivity).
  assert (Hc : @isCheckmate xiangqiAttacks checkmatePosition None = true)
    by (vm_compute; reflexivity).
  split; (split; [assumption|]).
  - exact (proj2 (proj2 (@checkmate_stalemate_exclusive xiangqiAttacks stalematePosition None)
                        (or_intror Hs))).
  - exact (proj2 (proj2 (@checkmate_stalemate_exclusive xiangqiAttacks checkmatePosition None)
                        (or_introl Hc))).
Defined.

Lemma outcome_cases_witness :
  @outcome xiangqiAttacks checkmatePosition None = Some (mkOutcome (Some black))
  /\ @outcome xiangqiAttacks loneKingsPosition None = Some (mkOutcome None)
  /\ @outcome xiangqiAttacks startPosition None = None.
Proof.
  split; [|split].
  - apply (proj1 (@outcome_cases xiangqiAttacks checkmatePosition)).
    left. vm_compute. reflexivity.
  - apply (proj1 (proj2 (@outcome_cases xiangqiAttacks loneKingsPosition))).
    + vm_compute. reflexivity.
    + vm_compute. reflexivity.
    + left. split; vm_compute; reflexivity.
  - apply (proj2 (proj2 (@outcome_cases xiangqiAttacks startPosition))).
    + vm_compute. reflexivity.
    + vm_compute. reflexivity.
    + intros [H _]. vm_compute in H. discriminate H.
    + vm_compute. reflexivity.
Defined.

(** ** Setups: validation and the round trip *)

Lemma clone_eq (b : Board) : Board.clone b = b.
Proof. destruct b. reflexivity. Qed.

Lemma boardEquals_refl (b : Board) : Board.boardEquals b b = true.
Proof.
  unfold Board.boardEquals, SquareSet.equals. cbn [forallb COLORS ROLES].
  rewrite !Z.eqb_refl. reflexivity.
Qed.

Lemma kingOf_has (b : Board) (c : Color) (k : Square) :
  Board.kingOf b c = Some k -> SquareSet.has (Board.byColor b c) k = true.
Proof.
  unfold Board.kingOf, SquareSet.singleSquare. intros H.
  destruct (SquareSet.squares (Board.pieces b c king)) as [|x [|y l]] eqn:Hs;
    try discriminate.
  injection H as ->.
  assert (Hin : In k (SquareSet.squares (Board.pieces b c king)))
    by (rewrite Hs; left; reflexivity).
  apply (proj1 (In_squares _ _)) in Hin. unfold Board.pieces in Hin.
  rewrite has_intersect in Hin. apply andb_true_iff in Hin. tauto.
Qed.

Lemma kingOf_occupied (b : Board) (c : Color) (k : Square) :
  Board_inv b -> Board.kingOf b c = Some k ->
  SquareSet.isEmpty (Board.occupied b) = false.
Proof.
  intros Hinv Hk. apply kingOf_has in Hk.
  destruct (SquareSet.isEmpty (Board.occupied b)) eqn:He; [|reflexivity].
  apply (isEmpty_has _ k) in He. rewrite (inv_color b Hinv) in He.
  assert (existsb (fun c => SquareSet.has (Board.byColor b c) k) COLORS = true)
    by (apply existsb_exists; exists c; split; [apply In_COLORS | exact Hk]).
  congruence.
Qed.

Section Setups.

Context {G : Attacks}.

(** Validation reads the board and the side to move, not the counters. *)
Lemma validate_counters (b : Board) (t : Color) (h f h' f' : Z) :
  validate (mkPosition b t h f) = validate (mkPosition b t h' f').
Proof. unfold validate, attackers. cbn [board turn]. reflexivity. Qed.

Lemma setupUnchecked_toSetup (P : Position) :
  setupUnchecked (toSetup P)
  = mkPosition (board P) (turn P) (Z.min (halfmoves P) 150)
               (Z.min (Z.max (fullmoves P) 1) 9999).
Proof.
  unfold setupUnchecked, toSetup.
  cbn [Setup.board Setup.turn Setup.halfmoves Setup.fullmoves].
  rewrite !clone_eq. reflexivity.
Qed.

Lemma fromSetup_result (s : Setup) :
  fromSetup s
  = match validate (setupUnchecked s) with
    | Ok _ => Ok (setupUnchecked s)
    | Err e => Err e
    end.
Proof. unfold fromSetup, Result_map. reflexivity. Qed.

(** With every role but the pawn within its limits, the loop over the
    roles of one colour fails exactly on the pawns. *)
Lemma validateRoles_pawn (b : Board) (c : Color) :
  (forall r, r <> pawn -> violatesSpec b c r = false) ->
  validateRoles b c ROLES = if violatesSpec b c pawn then Some Pawns else None.
Proof.
  intros H. unfold ROLES. cbn [validateRoles].
  rewrite (H king), (H advisor), (H elephant), (H horse), (H chariot), (H cannon)
    by discriminate.
  destruct (violatesSpec b c pawn); reflexivity.
Qed.

Lemma validateColors_pawn (b : Board) (c : Color) :
  (forall c' r, r <> pawn -> violatesSpec b c' r = false) ->
  violatesSpec b c pawn = true ->
  validateColors b COLORS = Some Pawns.
Proof.
  intros H Hc. unfold COLORS. cbn [validateColors].
  rewrite !validateRoles_pawn by (apply H).
  destruct c; rewrite Hc; [reflexivity|].
  destruct (violatesSpec b red pawn); reflexivity.
Qed.

(** C7. Round trip: the setup of a valid position is accepted by
    [fromSetup], and the position built from it has the board and the side
    to move of the original, so [equalsIgnoreMoves] holds; its counters are
    the clamped ones. *)
Theorem toSetup_fromSetup_roundtrip (P : Position) :
  validate P = Ok tt ->
  exists Q, fromSetup (toSetup P) = Ok Q
            /\ equalsIgnoreMoves P Q = true
            /\ board Q = board P
            /\ turn Q = turn P
            /\ halfmoves Q = Z.min (halfmoves P) 150
            /\ fullmoves Q = Z.min (Z.max (fullmoves P) 1) 9999.
Proof.
  intros Hv. exists (setupUnchecked (toSetup P)).
  rewrite fromSetup_result, setupUnchecked_toSetup.
  rewrite (validate_counters _ _ _ _ (halfmoves P) (fullmoves P)).
  destruct P as [b t h f]. cbn [board turn halfmoves fullmoves] in *.
  rewrite Hv. unfold equalsIgnoreMoves. cbn [board turn].
  rewrite boardEquals_refl, Color_eqb_refl. repeat split; reflexivity.
Qed.

(** C6. The boundary failures of setup validation: an empty board gives
    [Empty]; two kings on one file with no piece between them give
    [FacingKings]; a setup that passes every other check and has six pawns
    of one colour gives [Pawns]. The result is either the position of the
    setup, fully validated, or one error. *)
Theorem fromSetup_boundary (s : Setup) :
  (SquareSet.isEmpty (Board.occupied (Setup.board s)) = true ->
   fromSetup s = Err Empty)
  /\ (forall k1 k2,
        Board.wf (Setup.board s) = true ->
        Board.kingOf (Setup.board s) (Setup.turn s) = Some k1 ->
        Board.kingOf (Setup.board s) (opposite (Setup.turn s)) = Some k2 ->
        squareFile k1 = squareFile k2 ->
        SquareSet.isDisjoint (between k1 k2) (Board.occupied (Setup.board s)) = true ->
        fromSetup s = Err FacingKings)
  /\ (forall k1 k2 c,
        Board.wf (Setup.board s) = true ->
        Board.kingOf (Setup.board s) (Setup.turn s) = Some k1 ->
        Board.kingOf (Setup.board s) (opposite (Setup.turn s)) = Some k2 ->
        (squareFile k1 =? squareFile k2)
        && SquareSet.isDisjoint (between k1 k2) (Board.occupied (Setup.board s)) = false ->
        SquareSet.isEmpty
          (attacksTo k2 (Setup.turn s) (Setup.board s) (Board.occupied (Setup.board s))) = true ->
        (forall c' r, r <> pawn -> violatesSpec (Setup.board s) c' r = false) ->
        SquareSet.size (Board.pieces (Setup.board s) c pawn) = 6 ->
        fromSetup s = Err Pawns)
  /\ ((fromSetup s = Ok (setupUnchecked s) /\ validate (setupUnchecked s) = Ok tt)
      \/ (exists e, fromSetup s = Err e /\ validate (setupUnchecked s) = Err e)).
Proof.
  rewrite fromSetup_result.
  unfold setupUnchecked, validate, attackers. cbn [board turn]. rewrite clone_eq.
  split; [|split; [|split]].
  - intros H. rewrite H. reflexivity.
  - intros k1 k2 Hwf Hk1 Hk2 Hf Hd.
    rewrite (kingOf_occupied _ _ _ (Board_wf_inv _ Hwf) Hk1), Hk1, Hk2, Hf, Z.eqb_refl, Hd.
    reflexivity.
  - intros k1 k2 c Hwf Hk1 Hk2 Hf Ha Hr Hp.
    rewrite (kingOf_occupied _ _ _ (Board_wf_inv _ Hwf) Hk1), Hk1, Hk2, Hf.
    unfold SquareSet.nonEmpty. rewrite Ha. cbn [negb].
    rewrite (validateColors_pawn _ c Hr); [reflexivity|].
    unfold violatesSpec. cbv zeta. rewrite Hp. reflexivity.
  - destruct (SquareSet.isEmpty (Board.occupied (Setup.board s)));
      [right; eexists; split; reflexivity|].
    destruct (Board.kingOf (Setup.board s) (Setup.turn s));
      [|right; eexists; split; reflexivity].
    destruct (Board.kingOf (Setup.board s) (opposite (Setup.turn s)));
      [|right; eexists; split; reflexivity].
    match goal with |- context [if ?c then Err FacingKings else _] => destruct c end;
      [right; eexists; split; reflexivity|].
    match goal with |- context [if ?c then Err OppositeCheck else _] => destruct c end;
      [right; eexists; split; reflexivity|].
    destruct (validateColors (Setup.board s) COLORS);
      [right; eexists; split; reflexivity|].
    left. split; reflexivity.
Qed.

End Setups.

Lemma toSetup_fromSetup_roundtrip_witness :
  exists Q, @fromSetup xiangqiAttacks (toSetup startPosition) = Ok Q
            /\ equalsIgnoreMoves startPosition Q = true.
Proof.
  assert (Hv : @validate xiangqiAttacks startPosition = Ok tt) by (vm_compute; reflexivity).
  destruct (@toSetup_fromSetup_roundtrip xiangqiAttacks startPosition Hv) as [Q [H1 [H2 _]]].
  exists Q. split; assumption.
Defined.

Lemma fromSetup_boundary_witness :
  @fromSetup xiangqiAttacks (Setup.mk Board.empty red 0 1) = Err Empty
  /\ @fromSetup xiangqiAttacks (toSetup facingKingsPosition) = Err FacingKings
  /\ @fromSetup xiangqiAttacks (toSetup sixPawnsPosition) = Err Pawns.
Proof.
  split; [|split].
  - apply (proj1 (@fromSetup_boundary xiangqiAttacks (Setup.mk Board.empty red 0 1))).
    vm_compute. reflexivity.
  - apply (proj1 (proj2 (@fromSetup_boundary xiangqiAttacks (toSetup facingKingsPosition)))
             4 85); vm_compute; reflexivity.
  - apply (proj1 (proj2 (proj2 (@fromSetup_boundary xiangqiAttacks (toSetup sixPawnsPosition))))
             4 85 red);
      [vm_compute; reflexivity | vm_compute; reflexivity | vm_compute; reflexivity
      | vm_compute; reflexivity | vm_compute; reflexivity | | vm_compute; reflexivity].
    intros c' r Hr. destruct c', r; try (vm_compute; reflexivity); congruence.
Defined.

(** ** The attackers of a square *)

Lemma land_swap (a b c : Z) : Z.land a (Z.land b c) = Z.land b (Z.land a c).
Proof. rewrite !Z.land_assoc, (Z.land_comm a b). reflexivity. Qed.

Section AttackersTo.

Context {G : Attacks}.

Lemma attacksTo_has (sq : Square) (c : Color) (b : Board) (occ : SquareSet) (x : Square) :
  SquareSet.has (attacksTo sq c b occ) x
  = SquareSet.has (Board.byColor b c) x && SquareSet.has (attacksToRoles sq c b occ) x.
Proof. unfold attacksTo. apply has_intersect. Qed.

(** Whatever the geometry, a black pawn just below square 54 is in the
    union of the per-role intersections computed for red. *)
Lemma attacksToRoles_black_pawn :
  isValidStep 54 45 = true ->
  SquareSet.has
    (attacksToRoles 54 red (board blackPawnPosition)
                    (Board.occupied (board blackPawnPosition))) 45 = true.
Proof.
  intros Hstep. unfold attacksToRoles. rewrite has_union. apply orb_true_iff. right.
  rewrite has_intersect. apply andb_true_iff. split; [|vm_compute; reflexivity].
  unfold pawnInvAttacks, PAWN_INV_DIRS. cbn [Z.geb Z.compare Pos.compare Pos.compare_cont fold_left].
  change (54 + -9) with 45. rewrite Hstep.
  destruct (isValidStep 54 (54 + 1)); rewrite ?has_with; vm_compute;
    destruct (isValidStep 54 (54 + -1)); reflexivity.
Qed.

(** C2, as the code has it. The per-role intersections use the role
    bitboards of both colours; it is the final intersection with the
    attacker's bitboard that restricts the result to the attacker's pieces:
    the result is the union, over the seven roles, of the role's attack
    bitboard intersected with the attacker's pieces of that role, and all
    of it lies in the attacker's bitboard. *)
Theorem attacksTo_restricts_to_attacker (sq : Square) (c : Color) (b : Board)
    (occ : SquareSet) :
  attacksTo sq c b occ = attacksToPieces sq c b occ
  /\ forall x, SquareSet.has (attacksTo sq c b occ) x = true ->
               SquareSet.has (Board.byColor b c) x = true
               /\ SquareSet.has (attacksToRoles sq c b occ) x = true.
Proof.
  split.
  - unfold attacksTo, attacksToRoles, attacksToPieces, Board.pieces,
      SquareSet.intersect, SquareSet.union.
    rewrite !Z.land_lor_distr_r.
    rewrite !(land_swap (Board.byColor b c)). reflexivity.
  - intros x H. rewrite attacksTo_has in H. apply andb_true_iff in H. exact H.
Qed.

End AttackersTo.

(** C2, as stated, fails: on a well-formed board with a black pawn on square
    45, the union of the per-role intersections computed for red and square
    54 contains square 45, which is not in red's bitboard; the final
    intersection removes it, so the two results differ. *)
Lemma attacksTo_color_filter_not_redundant :
  let b := board blackPawnPosition in
  Board.wf b = true
  /\ Board.get b 45 = Some (mkPiece black pawn)
  /\ SquareSet.has (@attacksToRoles xiangqiAttacks 54 red b (Board.occupied b)) 45 = true
  /\ SquareSet.has (Board.byColor b red) 45 = false
  /\ SquareSet.has (@attacksTo xiangqiAttacks 54 red b (Board.occupied b)) 45 = false
  /\ @attacksTo xiangqiAttacks 54 red b (Board.occupied b)
     <> @attacksToRoles xiangqiAttacks 54 red b (Board.occupied b).
Proof.
  vm_compute. repeat split; try reflexivity. discriminate.
Qed.

(** ** Insufficient material *)

Lemma has_backrank (c : Color) (sq : Square) :
  SquareSet.has (SquareSet.backrank c) sq
  = SquareSet.validSquare sq && (squareRank sq =? farRank c).
Proof.
  destruct (SquareSet.validSquare sq) eqn:Hv.
  - apply (proj2 (In_allSquares sq)) in Hv.
    assert (Hall : forallb (fun x => Bool.eqb (SquareSet.has (SquareSet.backrank c) x)
                                              (squareRank x =? farRank c))
                           SquareSet.allSquares = true)
      by (destruct c; vm_compute; reflexivity).
    pose proof (proj1 (forallb_forall _ _) Hall sq Hv) as H.
    apply eqb_prop in H. exact H.
  - unfold SquareSet.has. rewrite Hv. reflexivity.
Qed.

Lemma wf_nonEmpty (s : SquareSet) :
  SquareSet.wf s = true ->
  (SquareSet.nonEmpty s = true <-> exists sq, SquareSet.has s sq = true).
Proof.
  intros Hs. unfold SquareSet.nonEmpty. split.
  - intros H. apply negb_true_iff in H.
    destruct (existsb (SquareSet.has s) SquareSet.allSquares) eqn:He.
    + apply existsb_exists in He. destruct He as [sq [_ Hsq]]. exists sq. exact Hsq.
    + exfalso. assert (Hn : SquareSet.isEmpty s = true); [|congruence].
      apply (wf_isEmpty s Hs). intros sq.
      destruct (SquareSet.has s sq) eqn:Hsq; [|reflexivity].
      pose proof (existsb_false _ _ sq He
                    (proj2 (In_allSquares sq) (has_valid _ _ Hsq))) as Hf.
      congruence.
  - intros [sq Hsq]. apply negb_true_iff.
    destruct (SquareSet.isEmpty s) eqn:He; [|reflexivity].
    rewrite (isEmpty_has s sq He) in Hsq. discriminate.
Qed.

Section Material.

Variable b : Board.
Hypothesis Hinv : Board_inv b.

Lemma pieces_wf (c : Color) (r : Role) : SquareSet.wf (Board.pieces b c r) = true.
Proof. unfold Board.pieces. apply wf_land_l, (inv_wf_color b Hinv). Qed.

(** The pieces of a colour and role are the squares holding such a piece. *)
Lemma pieces_get (c : Color) (r : Role) (sq : Square) :
  SquareSet.has (Board.pieces b c r) sq = true <-> Board.get b sq = Some (mkPiece c r).
Proof.
  unfold Board.pieces. rewrite has_intersect, andb_true_iff.
  symmetry. apply (get_Some b Hinv sq (mkPiece c r)).
Qed.

Lemma pieces_nonEmpty (c : Color) (r : Role) :
  SquareSet.nonEmpty (Board.pieces b c r) = true
  <-> exists sq, Board.get b sq = Some (mkPiece c r).
Proof.
  rewrite (wf_nonEmpty _ (pieces_wf c r)).
  split; intros [sq H]; exists sq; apply pieces_get; exact H.
Qed.

Lemma byRole_get (r : Role) (sq : Square) :
  SquareSet.has (Board.byRole b r) sq = true
  <-> exists c, Board.get b sq = Some (mkPiece c r).
Proof.
  split.
  - intros Hr.
    assert (Ho : SquareSet.has (Board.occupied b) sq = true).
    { rewrite (inv_role b Hinv). apply existsb_exists.
      exists r. split; [apply In_ROLES | exact Hr]. }
    rewrite (inv_color b Hinv) in Ho. apply existsb_exists in Ho.
    destruct Ho as [c [_ Hc]]. exists c.
    apply (get_Some b Hinv sq (mkPiece c r)). split; assumption.
  - intros [c Hg]. apply (get_Some b Hinv sq (mkPiece c r)) in Hg. tauto.
Qed.

Lemma byRole_isEmpty (r : Role) :
  SquareSet.isEmpty (Board.byRole b r) = true
  <-> forall sq c, Board.get b sq <> Some (mkPiece c r).
Proof.
  rewrite (wf_isEmpty _ (inv_wf_role b Hinv r)). split.
  - intros H sq c Hg.
    assert (SquareSet.has (Board.byRole b r) sq = true)
      by (apply byRole_get; exists c; exact Hg).
    rewrite H in *. discriminate.
  - intros H sq. destruct (SquareSet.has (Board.byRole b r) sq) eqn:Hr; [|reflexivity].
    apply byRole_get in Hr. destruct Hr as [c Hg]. exfalso. exact (H sq c Hg).
Qed.

Lemma pieces_isEmpty (c : Color) (r : Role) :
  SquareSet.isEmpty (Board.pieces b c r) = true
  <-> forall sq, Board.get b sq <> Some (mkPiece c r).
Proof.
  rewrite (wf_isEmpty _ (pieces_wf c r)). split.
  - intros H sq Hg. apply pieces_get in Hg. rewrite (H sq) in Hg. discriminate Hg.
  - intros H sq. destruct (SquareSet.has (Board.pieces b c r) sq) eqn:Hp; [|reflexivity].
    exfalso. exact (H sq (proj1 (pieces_get c r sq) Hp)).
Qed.

(** A test that holds of the listed squares of the pieces of a colour and
    role holds wherever such a piece stands. *)
Lemma pieces_forallb (f : Square -> bool) (c : Color) (r : Role) :
  forallb f (SquareSet.squares (Board.pieces b c r)) = true ->
  forall sq, Board.get b sq = Some (mkPiece c r) -> f sq = true.
Proof.
  intros H sq Hg. apply (proj1 (forallb_forall _ _) H).
  apply (proj2 (In_squares _ _)). apply (proj2 (pieces_get c r sq)). exact Hg.
Qed.

Lemma pawns_on_backrank (c : Color) :
  SquareSet.isEmpty (SquareSet.diff (Board.pieces b c pawn) (SquareSet.backrank c)) = true
  <-> forall sq, Board.get b sq = Some (mkPiece c pawn) -> squareRank sq = farRank c.
Proof.
  rewrite (wf_isEmpty _ (wf_diff _ _ (pieces_wf c pawn))). split.
  - intros H sq Hg. apply pieces_get in Hg. specialize (H sq).
    rewrite has_diff, Hg, has_backrank, (has_valid _ _ Hg) in H.
    simpl in H. apply negb_false_iff in H. apply Z.eqb_eq. exact H.
  - intros H sq. rewrite has_diff.
    destruct (SquareSet.has (Board.pieces b c pawn) sq) eqn:Hp; [|reflexivity].
    rewrite has_backrank, (has_valid _ _ Hp).
    rewrite (H sq (proj1 (pieces_get c pawn sq) Hp)), Z.eqb_refl. reflexivity.
Qed.

End Material.

(** C3, as the code has it. A side with a chariot or a horse has sufficient
    material; otherwise, with a cannon, it is insufficient exactly when
    there is no advisor and no pawn of either colour on the board;
    otherwise it is insufficient exactly when all its pawns stand on
    [SquareSet.backrank] of its colour, the rank farthest from the side it
    starts on: rank 9 for red, rank 0 for black. *)
Theorem hasInsufficientMaterial_cases (P : Position) (c : Color) :
  Board.wf (board P) = true ->
  let holds sq c' r := Board.get (board P) sq = Some (mkPiece c' r) in
  ((exists sq, holds sq c chariot \/ holds sq c horse) ->
   hasInsufficientMaterial P c = false)
  /\ (~ (exists sq, holds sq c chariot \/ holds sq c horse) ->
      (exists sq, holds sq c cannon) ->
      (hasInsufficientMaterial P c = true
       <-> forall sq c', ~ holds sq c' advisor /\ ~ holds sq c' pawn))
  /\ (~ (exists sq, holds sq c chariot \/ holds sq c horse) ->
      ~ (exists sq, holds sq c cannon) ->
      (hasInsufficientMaterial P c = true
       <-> forall sq, holds sq c pawn -> squareRank sq = farRank c)).
Proof.
  intros Hwf holds. subst holds. cbv beta.
  pose proof (Board_wf_inv _ Hwf) as Hinv.
  unfold hasInsufficientMaterial.
  assert (Hch : SquareSet.nonEmpty
                  (SquareSet.union (Board.pieces (board P) c chariot)
                                   (Board.pieces (board P) c horse)) = true
                <-> exists sq, Board.get (board P) sq = Some (mkPiece c chariot)
                               \/ Board.get (board P) sq = Some (mkPiece c horse)).
  { rewrite (wf_nonEmpty _ (wf_union _ _ (pieces_wf _ Hinv c chariot) (pieces_wf _ Hinv c horse))).
    split; intros [sq H]; exists sq.
    - rewrite has_union in H. apply orb_true_iff in H.
      destruct H as [H|H]; [left|right]; apply (pieces_get _ Hinv); exact H.
    - rewrite has_union. apply orb_true_iff.
      destruct H as [H|H]; [left|right]; apply (pieces_get _ Hinv); exact H. }
  pose proof (pieces_nonEmpty _ Hinv c cannon) as Hca.
  split; [|split].
  - intros H. apply Hch in H. rewrite H. reflexivity.
  - intros Hn Hc. apply Hca in Hc. rewrite Hc.
    destruct (SquareSet.nonEmpty _) eqn:Hx; [exfalso; apply Hn, Hch; reflexivity|].
    rewrite andb_true_iff, !(byRole_isEmpty _ Hinv). split.
    + intros [Ha Hp] sq c'. split; [apply Ha | apply Hp].
    + intros H. split; intros sq c'; apply (H sq c').
  - intros Hn Hc.
    destruct (SquareSet.nonEmpty (SquareSet.union _ _)) eqn:Hx;
      [exfalso; apply Hn, Hch; reflexivity|].
    destruct (SquareSet.nonEmpty (Board.pieces (board P) c cannon)) eqn:Hy;
      [exfalso; apply Hc, Hca; reflexivity|].
    apply (pawns_on_backrank _ Hinv).
Qed.

Lemma hasInsufficientMaterial_cases_witness :
  hasInsufficientMaterial startPosition red = false
  /\ hasInsufficientMaterial cannonOnlyPosition red = true
  /\ hasInsufficientMaterial cannonAdvisorPosition red = false
  /\ hasInsufficientMaterial farRankPawnPosition red = true
  /\ hasInsufficientMaterial startRankPawnPosition red = false.
Proof.
  assert (Hnone : forall P : Position,
             Board.wf (board P) = true ->
             SquareSet.isEmpty (Board.pieces (board P) red chariot) = true ->
             SquareSet.isEmpty (Board.pieces (board P) red horse) = true ->
             ~ (exists sq, Board.get (board P) sq = Some (mkPiece red chariot)
                           \/ Board.get (board P) sq = Some (mkPiece red horse))).
  { intros P Hwf Hc Hh [sq [H|H]].
    - exact (proj1 (pieces_isEmpty _ (Board_wf_inv _ Hwf) red chariot) Hc sq H).
    - exact (proj1 (pieces_isEmpty _ (Board_wf_inv _ Hwf) red horse) Hh sq H). }
  assert (Hno : forall P : Position,
             Board.wf (board P) = true ->
             SquareSet.isEmpty (Board.pieces (board P) red cannon) = true ->
             ~ (exists sq, Board.get (board P) sq = Some (mkPiece red cannon))).
  { intros P Hwf Hc [sq H].
    exact (proj1 (pieces_isEmpty _ (Board_wf_inv _ Hwf) red cannon) Hc sq H). }
  split; [|split; [|split; [|split]]].
  - assert (Hwf : Board.wf (board startPosition) = true) by (vm_compute; reflexivity).
    apply (proj1 (hasInsufficientMaterial_cases startPosition red Hwf)).
    exists 0. left. vm_compute. reflexivity.
  - assert (Hwf : Board.wf (board cannonOnlyPosition) = true) by (vm_compute; reflexivity).
    assert (Hc : SquareSet.isEmpty (Board.pieces (board cannonOnlyPosition) red chariot) = true)
      by (vm_compute; reflexivity).
    assert (Hh : SquareSet.isEmpty (Board.pieces (board cannonOnlyPosition) red horse) = true)
      by (vm_compute; reflexivity).
    assert (Ha : SquareSet.isEmpty (Board.byRole (board cannonOnlyPosition) advisor) = true)
      by (vm_compute; reflexivity).
    assert (Hp : SquareSet.isEmpty (Board.byRole (board cannonOnlyPosition) pawn) = true)
      by (vm_compute; reflexivity).
    assert (Hcan : exists sq, Board.get (board cannonOnlyPosition) sq = Some (mkPiece red cannon))
      by (exists 19; vm_compute; reflexivity).
    apply (proj2 (proj1 (proj2 (hasInsufficientMaterial_cases cannonOnlyPosition red Hwf))
                    (Hnone _ Hwf Hc Hh) Hcan)).
    intros sq c'. split.
    + exact (proj1 (byRole_isEmpty _ (Board_wf_inv _ Hwf) advisor) Ha sq c').
    + exact (proj1 (byRole_isEmpty _ (Board_wf_inv _ Hwf) pawn) Hp sq c').
  - assert (Hwf : Board.wf (board cannonAdvisorPosition) = true) by (vm_compute; reflexivity).
    assert (Hc : SquareSet.isEmpty (Board.pieces (board cannonAdvisorPosition) red chariot) = true)
      by (vm_compute; reflexivity).
    assert (Hh : SquareSet.isEmpty (Board.pieces (board cannonAdvisorPosition) red horse) = true)
      by (vm_compute; reflexivity).
    assert (Hcan : exists sq, Board.get (board cannonAdvisorPosition) sq
                              = Some (mkPiece red cannon))
      by (exists 19; vm_compute; reflexivity).
    assert (Hadv : Board.get (board cannonAdvisorPosition) 76 = Some (mkPiece black advisor))
      by (vm_compute; reflexivity).
    apply not_true_is_false. intros E.
    exact (proj1 (proj1 (proj1 (proj2 (hasInsufficientMaterial_cases
                                         cannonAdvisorPosition red Hwf))
                           (Hnone _ Hwf Hc Hh) Hcan) E 76 black) Hadv).
  - assert (Hwf : Board.wf (board farRankPawnPosition) = true) by (vm_compute; reflexivity).
    assert (Hc : SquareSet.isEmpty (Board.pieces (board farRankPawnPosition) red chariot) = true)
      by (vm_compute; reflexivity).
    assert (Hh : SquareSet.isEmpty (Board.pieces (board farRankPawnPosition) red horse) = true)
      by (vm_compute; reflexivity).
    assert (Hcan : SquareSet.isEmpty (Board.pieces (board farRankPawnPosition) red cannon) = true)
      by (vm_compute; reflexivity).
    assert (Hall : forallb (fun x => squareRank x =? farRank red)
                     (SquareSet.squares (Board.pieces (board farRankPawnPosition) red pawn))
                   = true)
      by (vm_compute; reflexivity).
    apply (proj2 (proj2 (proj2 (hasInsufficientMaterial_cases farRankPawnPosition red Hwf))
                    (Hnone _ Hwf Hc Hh) (Hno _ Hwf Hcan))).
    intros sq Hg. apply Z.eqb_eq.
    exact (pieces_forallb _ (Board_wf_inv _ Hwf) _ red pawn Hall sq Hg).
  - assert (Hwf : Board.wf (board startRankPawnPosition) = true) by (vm_compute; reflexivity).
    assert (Hc : SquareSet.isEmpty (Board.pieces (board startRankPawnPosition) red chariot) = true)
      by (vm_compute; reflexivity).
    assert (Hh : SquareSet.isEmpty (Board.pieces (board startRankPawnPosition) red horse) = true)
      by (vm_compute; reflexivity).
    assert (Hcan : SquareSet.isEmpty (Board.pieces (board startRankPawnPosition) red cannon)
                   = true)
      by (vm_compute; reflexivity).
    assert (Hpawn : Board.get (board startRankPawnPosition) 31 = Some (mkPiece red pawn))
      by (vm_compute; reflexivity).
    assert (Hrank : squareRank 31 <> farRank red) by (vm_compute; discriminate).
    apply not_true_is_false. intros E.
    exact (Hrank (proj1 (proj2 (proj2 (hasInsufficientMaterial_cases
                                         startRankPawnPosition red Hwf))
                           (Hnone _ Hwf Hc Hh) (Hno _ Hwf Hcan)) E 31 Hpawn)).
Defined.

(** C3, as stated, fails: red has a cannon, neither chariot nor horse, no
    advisor of its own, and there is no pawn on the board, yet red does not
    count as having insufficient material, because black has an advisor. *)
Lemma hasInsufficientMaterial_counts_all_advisors :
  let P := cannonAdvisorPosition in
  Board.wf (board P) = true
  /\ SquareSet.isEmpty (SquareSet.union (Board.pieces (board P) red chariot)
                                        (Board.pieces (board P) red horse)) = true
  /\ SquareSet.nonEmpty (Board.pieces (board P) red cannon) = true
  /\ SquareSet.isEmpty (Board.pieces (board P) red advisor) = true
  /\ SquareSet.isEmpty (Board.byRole (board P) pawn) = true
  /\ hasInsufficientMaterial_spec P red = true
  /\ hasInsufficientMaterial P red = false.
Proof. vm_compute. repeat split; reflexivity. Qed.

(** The last case of C3 differs too: a lone red pawn on square 83 stands on
    rank 9, the rank farthest from the one red starts on, and red counts as
    having insufficient material. *)
Lemma hasInsufficientMaterial_far_rank_pawn :
  let P := farRankPawnPosition in
  Board.wf (board P) = true
  /\ SquareSet.squares (Board.pieces (board P) red pawn) = [83]
  /\ squareRank 83 = 9
  /\ SquareSet.has (SquareSet.backrank red) 83 = true
  /\ SquareSet.has (ownBackRank red) 83 = false
  /\ hasInsufficientMaterial P red = true
  /\ hasInsufficientMaterial_spec P red = false.
Proof. vm_compute. repeat split; reflexivity. Qed.

(** ** Pseudo-legal destinations *)

Section PseudoDests.

Context {G : Attacks}.

(** [pseudoDests] removes the squares of the side to move, whatever the
    colour of the piece it is given. *)
Lemma pseudoDests_has (P : Position) (p : Piece) (s d : Square) :
  SquareSet.has (pseudoDests P p s) d
  = SquareSet.has (attacks p s (Board.occupied (board P))) d
    && negb (SquareSet.has (Board.byColor (board P) (turn P)) d).
Proof. unfold pseudoDests. apply has_diff. Qed.

Lemma pseudoDests_side_to_move (P : Position) (p : Piece) (s d : Square) :
  color p = turn P ->
  SquareSet.has (pseudoDests P p s) d = true ->
  SquareSet.has (Board.byColor (board P) (color p)) d = false.
Proof.
  intros Hc H. rewrite pseudoDests_has in H. apply andb_true_iff in H.
  destruct H as [_ H]. apply negb_true_iff in H. rewrite Hc. exact H.
Qed.

(** For a piece of the side not to move a reachable square holding a piece
    of its own colour stays in the result. *)
Lemma pseudoDests_keeps_own_colour (P : Position) (p q : Piece) (s d : Square) :
  Board_inv (board P) ->
  color p <> turn P ->
  Board.get (board P) d = Some q -> color q = color p ->
  SquareSet.has (attacks p s (Board.occupied (board P))) d = true ->
  SquareSet.has (pseudoDests P p s) d = true.
Proof.
  intros Hinv Hne Hq Hqc Ha. rewrite pseudoDests_has, Ha. cbn [andb].
  apply negb_true_iff.
  destruct (SquareSet.has (Board.byColor (board P) (turn P)) d) eqn:Ht; [|reflexivity].
  apply (get_Some _ Hinv) in Hq. destruct Hq as [Hq _].
  pose proof (inv_color_excl _ Hinv d _ _ Ht Hq). congruence.
Qed.

End PseudoDests.

(** C4 at a failing input. Red is to move; the black chariot on square 49
    reaches its own pawn on 58 and the red pawn on 40. [pseudoDests] for the
    black chariot keeps square 58, which holds a piece of the chariot's own
    colour, and drops square 40, which holds an enemy piece. *)
Theorem pseudoDests_of_side_not_to_move :
  let P := blackChariotPosition in
  let p := mkPiece black chariot in
  @validate xiangqiAttacks P = Ok tt
  /\ turn P = red
  /\ Board.get (board P) 49 = Some p
  /\ Board.get (board P) 58 = Some (mkPiece black pawn)
  /\ SquareSet.has (@pseudoDests xiangqiAttacks P p 49) 58 = true
  /\ Board.get (board P) 40 = Some (mkPiece red pawn)
  /\ SquareSet.has (@attacks xiangqiAttacks p 49 (Board.occupied (board P))) 40 = true
  /\ SquareSet.has (@pseudoDests xiangqiAttacks P p 49) 40 = false.
Proof. vm_compute. repeat split; reflexivity. Qed.

(** ** Playing a move *)

Lemma play_turn (P : Position) (m : Move) : turn (play P m) = opposite (turn P).
Proof.
  unfold play. destruct (Board.take (board P) (from m)) as [[piece|] b1];
    [destruct (Board.set b1 (to m) piece) as [[cap|] b2]|]; reflexivity.
Qed.

Lemma play_fullmoves (P : Position) (m : Move) :
  fullmoves (play P m)
  = if Color_eqb (turn P) black then fullmoves P + 1 else fullmoves P.
Proof.
  unfold play. destruct (Board.take (board P) (from m)) as [[piece|] b1];
    [destruct (Board.set b1 (to m) piece) as [[cap|] b2]|]; reflexivity.
Qed.

(** C5. [play] flips the side to move and counts a full move after black's
    move. With no piece on [from] the board is unchanged and the halfmove
    clock goes up by one. With a piece on [from] the piece is taken from
    [from] and set on [to]; the halfmove clock is reset to zero when [set]
    returns a captured piece and goes up by one otherwise. On a well-formed
    board and a square [to] of the grid this means: [to] holds the piece,
    [from] is empty (unless it is [to]), every other square is unchanged,
    and a capture is a piece standing on a square [to] other than [from]. *)
Theorem play_effect (P : Position) (m : Move) :
  turn (play P m) = opposite (turn P)
  /\ fullmoves (play P m)
     = (if Color_eqb (turn P) black then fullmoves P + 1 else fullmoves P)
  /\ match Board.get (board P) (from m) with
     | None =>
         board (play P m) = board P /\ halfmoves (play P m) = halfmoves P + 1
     | Some piece =>
         let b1 := snd (Board.take (board P) (from m)) in
         board (play P m) = snd (Board.set b1 (to m) piece)
         /\ halfmoves (play P m)
            = match fst (Board.set b1 (to m) piece) with
              | Some _ => 0
              | None => halfmoves P + 1
              end
         /\ (Board.wf (board P) = true ->
             SquareSet.validSquare (to m) = true ->
             (forall x, Board.get (board (play P m)) x
                        = if x =? to m then Some piece
                          else if x =? from m then None
                          else Board.get (board P) x)
             /\ fst (Board.set b1 (to m) piece)
                = (if to m =? from m then None else Board.get (board P) (to m)))
     end.
Proof.
  split; [apply play_turn|]. split; [apply play_fullmoves|].
  unfold play. pose proof (take_fst (board P) (from m)) as Hf.
  destruct (Board.take (board P) (from m)) as [taken b1] eqn:Ht. cbn [fst snd] in *.
  subst taken. destruct (Board.get (board P) (from m)) as [piece|] eqn:Hg.
  - cbv zeta.
    destruct (Board.set b1 (to m) piece) as [cap b2] eqn:Hs. cbn [fst snd].
    split; [destruct cap; reflexivity|]. split; [destruct cap; reflexivity|].
    intros Hwf Hv. pose proof (Board_wf_inv _ Hwf) as Hinv.
    assert (Hb1 : b1 = snd (Board.take (board P) (from m))) by (rewrite Ht; reflexivity).
    assert (Hinv1 : Board_inv b1) by (rewrite Hb1; apply take_inv; exact Hinv).
    assert (Hb2 : b2 = snd (Board.set b1 (to m) piece)) by (rewrite Hs; reflexivity).
    assert (Hcap : cap = fst (Board.set b1 (to m) piece)) by (rewrite Hs; reflexivity).
    split.
    + intros x. replace (board _) with b2 by (destruct cap; reflexivity).
      rewrite Hb2, (get_set b1 Hinv1 _ _ _ Hv).
      destruct (x =? to m); [reflexivity|].
      rewrite Hb1. apply (get_take _ Hinv).
    + rewrite Hcap, (set_fst b1), Hb1. apply (get_take _ Hinv).
  - assert (b1 = board P).
    { unfold Board.take in Ht. rewrite Hg in Ht. injection Ht as <-. reflexivity. }
    subst b1. split; reflexivity.
Qed.

Lemma play_effect_witness :
  let P := mkPosition (board startPosition) black 7 3 in
  let Q := play P (mkMove 64 1) in
  turn Q = red /\ fullmoves Q = 4 /\ halfmoves Q = 0
  /\ Board.get (board Q) 1 = Some (mkPiece black cannon)
  /\ Board.get (board Q) 64 = None
  /\ Board.get (board Q) 19 = Some (mkPiece red cannon).
Proof.
  intros P Q.
  destruct (play_effect P (mkMove 64 1)) as [Ht [Hf Hm]]. fold Q in Ht, Hf, Hm.
  assert (Hg : Board.get (board P) (from (mkMove 64 1)) = Some (mkPiece black cannon))
    by (vm_compute; reflexivity).
  rewrite Hg in Hm. cbv zeta in Hm. destruct Hm as [_ [Hh Hw]].
  assert (Hwf : Board.wf (board P) = true) by (vm_compute; reflexivity).
  assert (Hv : SquareSet.validSquare (to (mkMove 64 1)) = true) by (vm_compute; reflexivity).
  destruct (Hw Hwf Hv) as [Hx Hc].
  rewrite Hc in Hh.
  split; [exact Ht|]. split; [exact Hf|]. split; [exact Hh|].
  rewrite (Hx 1), (Hx 64), (Hx 19).
  vm_compute. repeat split; reflexivity.
Defined.

(** ** Legal destinations *)

Lemma fold_without_has (bad : Square -> bool) (l : list Square) (acc : SquareSet) (d : Square) :
  SquareSet.has
    (fold_left (fun a x => if bad x then SquareSet.without a x else a) l acc) d = true ->
  SquareSet.has acc d = true /\ (In d l -> bad d = false).
Proof.
  revert acc. induction l as [|a l IH]; intros acc H; cbn [fold_left] in H.
  - split; [exact H | intros []].
  - apply IH in H. destruct H as [Hacc Hl].
    destruct (bad a) eqn:Ha.
    + rewrite has_without in Hacc. apply andb_true_iff in Hacc.
      destruct Hacc as [Hacc Hne]. apply negb_true_iff, Z.eqb_neq in Hne.
      split; [exact Hacc|]. intros [Heq|Hin]; [congruence | exact (Hl Hin)].
    + split; [exact Hacc|]. intros [Heq|Hin]; [subst a; exact Ha | exact (Hl Hin)].
Qed.

Lemma NoDup_allSquares : NoDup SquareSet.allSquares.
Proof.
  unfold SquareSet.allSquares. apply Injective_map_NoDup.
  - intros x y. apply Nat2Z.inj.
  - apply seq_NoDup.
Qed.

Lemma filter_eqb_single (l : list Z) (k : Z) :
  NoDup l -> In k l -> filter (fun x => x =? k) l = [k].
Proof.
  induction l as [|a l IH]; intros Hnd Hin; [destruct Hin|].
  inversion Hnd as [|? ? Hnotin Hnd']; subst. cbn [filter].
  destruct (Z.eqb_spec a k) as [->|Hne].
  - f_equal. clear IH Hin Hnd. induction l as [|b l IHl]; [reflexivity|].
    cbn [filter]. destruct (Z.eqb_spec b k) as [->|_].
    + exfalso. apply Hnotin. left. reflexivity.
    + apply IHl.
      * intros Hin. apply Hnotin. right. exact Hin.
      * inversion Hnd'. assumption.
  - destruct Hin as [Heq|Hin]; [congruence|]. apply IH; assumption.
Qed.

(** A set with one member iterates over that member alone. *)
Lemma squares_single (s : SquareSet) (k : Square) :
  (forall x, SquareSet.has s x = true <-> x = k) -> SquareSet.squares s = [k].
Proof.
  intros H. unfold SquareSet.squares.
  rewrite (filter_ext (SquareSet.has s) (fun x => x =? k)).
  - apply filter_eqb_single; [apply NoDup_allSquares|].
    apply In_allSquares. apply (has_valid s). apply H. reflexivity.
  - intros x. destruct (Z.eqb_spec x k) as [->|Hne].
    + apply H. reflexivity.
    + destruct (SquareSet.has s x) eqn:Hx; [|reflexivity].
      apply H in Hx. contradiction.
Qed.

Lemma kingOf_single (b : Board) (c : Color) (k : Square) :
  Board.kingOf b c = Some k ->
  forall x, SquareSet.has (Board.pieces b c king) x = true <-> x = k.
Proof.
  unfold Board.kingOf, SquareSet.singleSquare. intros H x.
  destruct (SquareSet.squares (Board.pieces b c king)) as [|y [|z l]] eqn:Hs;
    try discriminate.
  injection H as ->. rewrite <- In_squares, Hs. cbn [In]. intuition congruence.
Qed.

Lemma single_kingOf (b : Board) (c : Color) (k : Square) :
  (forall x, SquareSet.has (Board.pieces b c king) x = true <-> x = k) ->
  Board.kingOf b c = Some k.
Proof.
  intros H. unfold Board.kingOf, SquareSet.singleSquare.
  rewrite (squares_single _ k H). reflexivity.
Qed.

Lemma pair_check :
  forallb (fun a => forallb (pairFilterOk a) SquareSet.allSquares) SquareSet.allSquares = true.
Proof. vm_compute. reflexivity. Qed.

Lemma filter_pair (a b : Z) :
  In a SquareSet.allSquares -> In b SquareSet.allSquares -> a < b ->
  filter (fun x => (x =? a) || (x =? b)) SquareSet.allSquares = [a; b].
Proof.
  intros Ha Hb Hlt.
  pose proof (proj1 (forallb_forall _ _) pair_check a Ha) as Hab'.
  pose proof (proj1 (forallb_forall _ _) Hab' b Hb) as Hab. clear Hab'.
  unfold pairFilterOk in Hab.
  apply Z.ltb_lt in Hlt. rewrite Hlt in Hab. rewrite orb_false_l in Hab.
  destruct (filter (fun x => (x =? a) || (x =? b)) SquareSet.allSquares)
    as [|x [|y [|z l]]]; try discriminate Hab.
  apply andb_true_iff in Hab. destruct Hab as [Hx Hy].
  apply Z.eqb_eq in Hx, Hy. subst. reflexivity.
Qed.

(** A set with two members iterates over the lower one, then the higher. *)
Lemma squares_pair (s : SquareSet) (a b : Square) :
  a < b ->
  (forall x, SquareSet.has s x = true <-> x = a \/ x = b) ->
  SquareSet.squares s = [a; b].
Proof.
  intros Hlt H.
  assert (Ha : In a SquareSet.allSquares)
    by (apply In_allSquares, (has_valid s), H; left; reflexivity).
  assert (Hb : In b SquareSet.allSquares)
    by (apply In_allSquares, (has_valid s), H; right; reflexivity).
  unfold SquareSet.squares.
  rewrite (filter_ext (SquareSet.has s) (fun x => (x =? a) || (x =? b))).
  - exact (filter_pair a b Ha Hb Hlt).
  - intros x. destruct (SquareSet.has s x) eqn:Hx.
    + apply H in Hx. symmetry. apply orb_true_iff.
      destruct Hx as [->| ->]; [left|right]; apply Z.eqb_refl.
    + symmetry. apply orb_false_iff. split; apply Z.eqb_neq; intros ->;
        [assert (SquareSet.has s a = true) by (apply H; left; reflexivity)
        |assert (SquareSet.has s b = true) by (apply H; right; reflexivity)];
        congruence.
Qed.

Lemma opposite_neq (c : Color) : opposite c <> c.
Proof. destruct c; discriminate. Qed.

Lemma color_cases (c c' : Color) : c' = c \/ c' = opposite c.
Proof. destruct c, c'; simpl; tauto. Qed.

(** With one king of each colour the king bitboard holds these two squares. *)
Lemma two_kings (b : Board) (c : Color) (k1 k2 : Square) :
  Board_inv b ->
  Board.kingOf b c = Some k1 -> Board.kingOf b (opposite c) = Some k2 ->
  k1 <> k2
  /\ forall x, SquareSet.has (Board.byRole b king) x = true <-> x = k1 \/ x = k2.
Proof.
  intros Hinv H1 H2.
  pose proof (kingOf_single _ _ _ H1) as Hone1.
  pose proof (kingOf_single _ _ _ H2) as Hone2.
  split.
  - intros ->.
    pose proof (proj1 (pieces_get _ Hinv _ _ _) (proj2 (Hone1 k2) eq_refl)) as Ha.
    pose proof (proj1 (pieces_get _ Hinv _ _ _) (proj2 (Hone2 k2) eq_refl)) as Hb.
    rewrite Ha in Hb. injection Hb as Hb. symmetry in Hb. exact (opposite_neq c Hb).
  - intros x. rewrite (byRole_get _ Hinv). split.
    + intros [c' Hg]. apply (pieces_get _ Hinv) in Hg.
      destruct (color_cases c c') as [-> | ->]; [left; apply Hone1 | right; apply Hone2];
        exact Hg.
    + intros [-> | ->]; [exists c | exists (opposite c)]; apply (pieces_get _ Hinv);
        [apply Hone1 | apply Hone2]; reflexivity.
Qed.

Section Moving.

Variable b : Board.
Hypothesis Hinv : Board_inv b.
Variables (s d : Square) (piece : Piece).
Hypothesis Hd : SquareSet.validSquare d = true.

Lemma moved_inv : Board_inv (movedBoard b s d piece).
Proof. unfold movedBoard. apply set_inv, take_inv, Hinv. Qed.

Lemma moved_get (x : Square) :
  Board.get (movedBoard b s d piece) x
  = if x =? d then Some piece else if x =? s then None else Board.get b x.
Proof.
  unfold movedBoard. rewrite (get_set _ (take_inv b Hinv s) _ _ _ Hd).
  destruct (x =? d); [reflexivity|]. apply (get_take b Hinv).
Qed.

(** The king of the mover after the move: the destination when the king
    itself moved, the square it stood on otherwise. *)
Lemma moved_kingOf (k : Square) :
  Board.get b s = Some piece ->
  SquareSet.has (Board.byColor b (color piece)) d = false ->
  Board.kingOf b (color piece) = Some k ->
  Board.kingOf (movedBoard b s d piece) (color piece) = Some (if s =? k then d else k).
Proof.
  intros Hs Hfree Hk. pose proof (kingOf_single _ _ _ Hk) as Hone.
  assert (Hkd : k <> d).
  { intros ->. pose proof (proj2 (Hone d) eq_refl) as H.
    unfold Board.pieces in H. rewrite has_intersect, Hfree in H. discriminate. }
  apply single_kingOf. intros x.
  rewrite (pieces_get _ moved_inv), moved_get.
  destruct (Z.eqb_spec s k) as [Hsk|Hsk].
  - assert (Hrole : piece = mkPiece (color piece) king).
    { pose proof (proj2 (Hone k) eq_refl) as H. apply (pieces_get _ Hinv) in H. congruence. }
    destruct (Z.eqb_spec x d) as [Hxd|Hxd].
    + split; [intros _; exact Hxd | intros _; congruence].
    + destruct (Z.eqb_spec x s) as [Hxs|Hxs].
      * split; [discriminate | intros Heq; congruence].
      * rewrite <- (pieces_get _ Hinv), Hone. split; intros Heq; congruence.
  - destruct (Z.eqb_spec x d) as [Hxd|Hxd].
    + split; [|intros Heq; congruence].
      intros Hp. exfalso. apply Hsk. apply Hone. apply (pieces_get _ Hinv).
      congruence.
    + destruct (Z.eqb_spec x s) as [Hxs|Hxs].
      * split; [discriminate | intros Heq; congruence].
      * rewrite <- (pieces_get _ Hinv). apply Hone.
Qed.

(** The king of the other side stays where it is unless it is captured. *)
Lemma moved_kingOf_other (c : Color) (k : Square) :
  Board.get b s = Some piece ->
  c <> color piece ->
  Board.kingOf b c = Some k ->
  d <> k ->
  Board.kingOf (movedBoard b s d piece) c = Some k.
Proof.
  intros Hs Hc Hk Hdk. pose proof (kingOf_single _ _ _ Hk) as Hone.
  assert (Hsk : s <> k).
  { intros Heq. pose proof (proj2 (Hone k) eq_refl) as H.
    apply (pieces_get _ Hinv) in H. rewrite Heq, H in Hs. injection Hs as Hs.
    apply Hc. rewrite <- Hs. reflexivity. }
  apply single_kingOf. intros x.
  rewrite (pieces_get _ moved_inv), moved_get.
  destruct (Z.eqb_spec x d) as [Hxd|Hxd].
  - split; [|intros Heq; congruence].
    intros Hp. injection Hp as Hp. exfalso. apply Hc. rewrite Hp. reflexivity.
  - destruct (Z.eqb_spec x s) as [Hxs|Hxs].
    + split; [discriminate | intros Heq; congruence].
    + rewrite <- (pieces_get _ Hinv). apply Hone.
Qed.

End Moving.

Section Dests.

Context {G : Attacks}.

Lemma tryMove_board (P : Position) (s : Square) (piece : Piece) (d : Square) :
  board (tryMove P s piece d) = movedBoard (board P) s d piece.
Proof. unfold tryMove, clone, movedBoard. cbn [board]. rewrite clone_eq. reflexivity. Qed.

Lemma tryMove_turn (P : Position) (s : Square) (piece : Piece) (d : Square) :
  turn (tryMove P s piece d) = turn P.
Proof. reflexivity. Qed.

Lemma isCheck_kingOf (Q : Position) (k : Square) :
  Board.kingOf (board Q) (turn Q) = Some k ->
  isCheck Q None
  = negb (SquareSet.isEmpty
            (attackers Q k (opposite (turn Q)) (Board.occupied (board Q)))).
Proof. intros H. unfold isCheck, ctxOr, ctx. rewrite H. reflexivity. Qed.

(** What the filter of [dests] keeps: a pseudo-legal destination of the
    piece on the square, after which the clone is neither in check nor has
    facing kings. *)
Lemma dests_has (P : Position) (s d : Square) (c : option Context) :
  SquareSet.has (dests P s c) d = true ->
  exists piece,
    Board.get (board P) s = Some piece
    /\ color piece = turn P
    /\ SquareSet.has (pseudoDests P piece s) d = true
    /\ isCheck (tryMove P s piece d) None || isFacingKings (tryMove P s piece d) = false.
Proof.
  unfold dests. destruct (Board.get (board P) s) as [piece|];
    [|rewrite has_empty; discriminate].
  destruct (Color_eqb (color piece) (turn P)) eqn:Hc; cbn [negb];
    [|rewrite has_empty; discriminate].
  cbv zeta. intros H.
  apply (fold_without_has
           (fun dest => isCheck (tryMove P s piece dest) None
                        || isFacingKings (tryMove P s piece dest))) in H.
  destruct H as [Hp Hok]. exists piece.
  split; [reflexivity|]. split; [apply Color_eqb_eq; exact Hc|]. split; [exact Hp|].
  apply Hok. apply In_squares. exact Hp.
Qed.

Lemma isFacingKings_pair (Q : Position) (a b : Square) :
  SquareSet.squares (Board.byRole (board Q) king) = [a; b] ->
  isFacingKings Q
  = (squareFile a =? squareFile b)
    && SquareSet.isDisjoint (between a b) (Board.occupied (board Q)).
Proof.
  intros H. unfold isFacingKings, SquareSet.first, SquareSet.last. rewrite H. reflexivity.
Qed.

(** With one king of each colour, [isFacingKings] says that the two kings
    stand on one file and no piece stands between the lower and the higher
    of the two squares. *)
Lemma isFacingKings_kings (Q : Position) (c : Color) (k1 k2 : Square) :
  Board_inv (board Q) ->
  Board.kingOf (board Q) c = Some k1 ->
  Board.kingOf (board Q) (opposite c) = Some k2 ->
  isFacingKings Q
  = (squareFile k1 =? squareFile k2)
    && SquareSet.isDisjoint (between (Z.min k1 k2) (Z.max k1 k2))
                            (Board.occupied (board Q)).
Proof.
  intros Hinv H1 H2. destruct (two_kings _ _ _ _ Hinv H1 H2) as [Hne Hmem].
  destruct (Z.lt_ge_cases k1 k2) as [Hlt|Hge].
  - rewrite (isFacingKings_pair Q k1 k2 (squares_pair _ _ _ Hlt Hmem)).
    rewrite Z.min_l, Z.max_r by lia. reflexivity.
  - assert (Hlt : k2 < k1) by lia.
    assert (Hmem' : forall x, SquareSet.has (Board.byRole (board Q) king) x = true
                              <-> x = k2 \/ x = k1)
      by (intros x; rewrite Hmem; tauto).
    rewrite (isFacingKings_pair Q k2 k1 (squares_pair _ _ _ Hlt Hmem')).
    rewrite Z.min_r, Z.max_l, (Z.eqb_sym (squareFile k2)) by lia. reflexivity.
Qed.

(** C1. Every destination in [dests(s)] is a pseudo-legal destination of
    the piece of the side to move standing on [s], and on the position
    obtained by taking that piece from [s] and setting it on the
    destination the mover is not in check and the kings do not face each
    other. On a well-formed board on which the mover has a king, that
    position has the piece on the destination, nothing on [s], every other
    square unchanged, and no piece of the other side attacks the mover's
    king; and when the other side has a king, which the move does not
    capture, the two kings are not on one file with nothing between them. *)
Theorem dests_leave_king_safe (P : Position) (s d : Square) (c : option Context) :
  SquareSet.has (dests P s c) d = true ->
  exists piece,
    Board.get (board P) s = Some piece
    /\ color piece = turn P
    /\ SquareSet.has (pseudoDests P piece s) d = true
    /\ isCheck (tryMove P s piece d) None = false
    /\ isFacingKings (tryMove P s piece d) = false
    /\ (Board.wf (board P) = true ->
        forall k, Board.kingOf (board P) (turn P) = Some k ->
        let Q := tryMove P s piece d in
        let k1 := if s =? k then d else k in
        (forall x, Board.get (board Q) x
                   = if x =? d then Some piece
                     else if x =? s then None
                     else Board.get (board P) x)
        /\ Board.kingOf (board Q) (turn P) = Some k1
        /\ SquareSet.isEmpty
             (attackers Q k1 (opposite (turn P)) (Board.occupied (board Q))) = true
        /\ (forall k2,
              Board.kingOf (board P) (opposite (turn P)) = Some k2 -> d <> k2 ->
              Board.kingOf (board Q) (opposite (turn P)) = Some k2
              /\ ~ (squareFile k1 = squareFile k2
                    /\ SquareSet.isDisjoint (between (Z.min k1 k2) (Z.max k1 k2))
                                            (Board.occupied (board Q)) = true))).
Proof.
  intros H. apply dests_has in H. destruct H as [piece [Hg [Hc [Hp Hsafe]]]].
  apply orb_false_iff in Hsafe. destruct Hsafe as [Hcheck Hface].
  exists piece. repeat (split; [assumption|]).
  cbv zeta. intros Hwf k Hk. pose proof (Board_wf_inv _ Hwf) as Hinv.
  pose proof (has_valid _ _ Hp) as Hd.
  pose proof (pseudoDests_side_to_move P piece s d Hc Hp) as Hfree.
  pose proof (moved_inv (board P) Hinv s d piece) as HinvQ.
  rewrite <- tryMove_board in HinvQ.
  assert (Hkq : Board.kingOf (board (tryMove P s piece d)) (turn P)
                = Some (if s =? k then d else k)).
  { rewrite tryMove_board. rewrite <- Hc in Hk |- *.
    exact (moved_kingOf (board P) Hinv s d piece Hd k Hg Hfree Hk). }
  split; [|split; [exact Hkq|split]].
  - intros x. rewrite tryMove_board. exact (moved_get (board P) Hinv s d piece Hd x).
  - pose proof Hkq as Hkq'. rewrite <- (tryMove_turn P s piece d) in Hkq'.
    rewrite (isCheck_kingOf _ _ Hkq') in Hcheck.
    apply negb_false_iff in Hcheck. exact Hcheck.
  - intros k2 Hk2 Hdk.
    assert (Hk2q : Board.kingOf (board (tryMove P s piece d)) (opposite (turn P)) = Some k2).
    { rewrite tryMove_board.
      apply (moved_kingOf_other (board P) Hinv s d piece Hd _ k2 Hg); [|exact Hk2|exact Hdk].
      rewrite Hc. apply opposite_neq. }
    split; [exact Hk2q|].
    rewrite (isFacingKings_kings _ _ _ _ HinvQ Hkq Hk2q) in Hface.
    intros [Hfile Hclear]. rewrite Hfile, Z.eqb_refl, Hclear in Hface. discriminate.
Qed.

End Dests.

Lemma dests_leave_king_safe_witness :
  let Q := tryMove startPosition 19 (mkPiece red cannon) 82 in
  SquareSet.has (@dests xiangqiAttacks startPosition 19 None) 82 = true
  /\ @isCheck xiangqiAttacks Q None = false
  /\ @isFacingKings xiangqiAttacks Q = false
  /\ Board.kingOf (board Q) red = Some 4
  /\ SquareSet.isEmpty (@attackers xiangqiAttacks Q 4 black (Board.occupied (board Q))) = true
  /\ Board.kingOf (board Q) black = Some 85
  /\ ~ (squareFile 4 = squareFile 85
        /\ SquareSet.isDisjoint (@between xiangqiAttacks 4 85) (Board.occupied (board Q)) = true).
Proof.
  intros Q.
  assert (Hd : SquareSet.has (@dests xiangqiAttacks startPosition 19 None) 82 = true)
    by (vm_compute; reflexivity).
  split; [exact Hd|].
  destruct (@dests_leave_king_safe xiangqiAttacks startPosition 19 82 None Hd)
    as [piece [Hg [_ [_ [Hcheck [Hface Hking]]]]]].
  assert (Hpiece : piece = mkPiece red cannon).
  { assert (Hs : Board.get (board startPosition) 19 = Some (mkPiece red cannon))
      by (vm_compute; reflexivity).
    congruence. }
  subst piece.
  assert (Hwf : Board.wf (board startPosition) = true) by (vm_compute; reflexivity).
  assert (Hk : Board.kingOf (board startPosition) (turn startPosition) = Some 4)
    by (vm_compute; reflexivity).
  assert (Hk2 : Board.kingOf (board startPosition) (opposite (turn startPosition)) = Some 85)
    by (vm_compute; reflexivity).
  destruct (Hking Hwf 4 Hk) as [_ [Hk' [Hsafe Hkings]]].
  destruct (Hkings 85 Hk2 ltac:(discriminate)) as [Hk2' Hnf].
  split; [exact Hcheck|]. split; [exact Hface|]. split; [exact Hk'|].
  split; [exact Hsafe|]. split; [exact Hk2'|exact Hnf].
Defined.

(** * Further properties of the engine *)

(** ** The board invariant, back from membership to bitboards *)

Lemma isDisjoint_excl (a b : SquareSet) :
  SquareSet.wf a = true ->
  (forall sq, SquareSet.has a sq = true -> SquareSet.has b sq = true -> False) ->
  SquareSet.isDisjoint a b = true.
Proof.
  intros Ha H. unfold SquareSet.isDisjoint.
  apply (proj2 (wf_isEmpty _ (wf_land_l a b Ha))). intros sq.
  rewrite has_intersect.
  destruct (SquareSet.has a sq) eqn:H1; [|reflexivity].
  destruct (SquareSet.has b sq) eqn:H2; [|reflexivity].
  exfalso. exact (H sq H1 H2).
Qed.

Lemma Board_inv_wf (b : Board) : Board_inv b -> Board.wf b = true.
Proof.
  intros Hinv. unfold Board.wf. rewrite !andb_true_iff.
  repeat match goal with |- _ /\ _ => split end.
  - exact (inv_wf_occupied b Hinv).
  - apply forallb_forall. intros c _. exact (inv_wf_color b Hinv c).
  - apply forallb_forall. intros r _. exact (inv_wf_role b Hinv r).
  - apply Z.eqb_eq. cbn [fold_right COLORS]. apply wf_ext.
    + repeat apply wf_union; try apply (inv_wf_color b Hinv); apply wf_empty.
    + exact (inv_wf_occupied b Hinv).
    + intros sq. rewrite (inv_color b Hinv). cbn [existsb COLORS].
      rewrite !has_union, has_empty. reflexivity.
  - apply Z.eqb_eq. cbn [fold_right ROLES]. apply wf_ext.
    + repeat apply wf_union; try apply (inv_wf_role b Hinv); apply wf_empty.
    + exact (inv_wf_occupied b Hinv).
    + intros sq. rewrite (inv_role b Hinv). cbn [existsb ROLES].
      rewrite !has_union, has_empty. reflexivity.
  - apply forallb_forall. intros c1 _. apply forallb_forall. intros c2 _.
    destruct (Color_eqb c1 c2) eqn:He; [reflexivity|]. cbn [orb].
    apply isDisjoint_excl; [apply (inv_wf_color b Hinv)|].
    intros sq H1 H2. pose proof (inv_color_excl b Hinv sq c1 c2 H1 H2) as Heq.
    apply Color_eqb_eq in Heq. congruence.
  - apply forallb_forall. intros r1 _. apply forallb_forall. intros r2 _.
    destruct (Role_eqb r1 r2) eqn:He; [reflexivity|]. cbn [orb].
    apply isDisjoint_excl; [apply (inv_wf_role b Hinv)|].
    intros sq H1 H2. pose proof (inv_role_excl b Hinv sq r1 r2 H1 H2) as Heq.
    apply Role_eqb_eq in Heq. congruence.
Qed.

(** ** Playing moves *)

Lemma play_board (P : Position) (m : Move) :
  board (play P m)
  = match Board.get (board P) (from m) with
    | None => board P
    | Some piece => movedBoard (board P) (from m) (to m) piece
    end.
Proof.
  unfold play, movedBoard. pose proof (take_fst (board P) (from m)) as Hf.
  destruct (Board.take (board P) (from m)) as [taken b1] eqn:Ht. cbn [fst snd] in *.
  subst taken. destruct (Board.get (board P) (from m)) as [piece|] eqn:Hg.
  - destruct (Board.set b1 (to m) piece) as [[cap|] b2]; reflexivity.
  - unfold Board.take in Ht. rewrite Hg in Ht. injection Ht as <-. reflexivity.
Qed.

Lemma play_halfmoves_cases (P : Position) (m : Move) :
  halfmoves (play P m) = 0 \/ halfmoves (play P m) = halfmoves P + 1.
Proof.
  unfold play. destruct (Board.take (board P) (from m)) as [[piece|] b1];
    [destruct (Board.set b1 (to m) piece) as [[cap|] b2]|]; cbn [halfmoves]; tauto.
Qed.

(** X1. [play] keeps the board well-formed, whatever the move: with or without
    a piece on [from], with or without a capture, on or off the grid. *)
Theorem play_keeps_board_wf (P : Position) (m : Move) :
  Board.wf (board P) = true -> Board.wf (board (play P m)) = true.
Proof.
  intros Hwf. pose proof (Board_wf_inv _ Hwf) as Hinv. rewrite play_board.
  destruct (Board.get (board P) (from m)) as [piece|]; [|exact Hwf].
  apply Board_inv_wf. exact (moved_inv (board P) Hinv (from m) (to m) piece).
Qed.

Lemma play_keeps_board_wf_witness :
  Board.wf (board (play startPosition (mkMove 19 82))) = true.
Proof.
  apply play_keeps_board_wf. vm_compute. reflexivity.
Defined.

(** X2. Two plies make one full move: after two calls of [play], with any two
    moves, the side to move is the same again and the fullmove counter is
    one higher; a halfmove clock that was not negative is still not
    negative and at most two higher. *)
Theorem play_twice (P : Position) (m1 m2 : Move) :
  let Q := play (play P m1) m2 in
  turn Q = turn P
  /\ fullmoves Q = fullmoves P + 1
  /\ (0 <= halfmoves P -> 0 <= halfmoves Q <= halfmoves P + 2).
Proof.
  cbv zeta. rewrite !play_turn, !play_fullmoves, play_turn.
  pose proof (play_halfmoves_cases (play P m1) m2) as H2.
  pose proof (play_halfmoves_cases P m1) as H1.
  split; [destruct (turn P); reflexivity|].
  split; [destruct (turn P); cbn [opposite Color_eqb]; lia|].
  lia.
Qed.

Lemma play_twice_witness :
  let Q := play (play startPosition (mkMove 19 82)) (mkMove 81 82) in
  turn Q = red /\ fullmoves Q = 2 /\ 0 <= halfmoves Q <= 2.
Proof.
  intros Q. destruct (play_twice startPosition (mkMove 19 82) (mkMove 81 82))
    as [Ht [Hf Hh]].
  split; [exact Ht|]. split; [exact Hf|]. apply Hh. vm_compute. discriminate.
Defined.

(** ** What validation accepts and what its errors mean *)

Lemma intersects_empty_r (a : SquareSet) : SquareSet.intersects a SquareSet.empty = false.
Proof.
  unfold SquareSet.intersects, SquareSet.nonEmpty, SquareSet.isEmpty,
    SquareSet.intersect, SquareSet.empty.
  rewrite Z.land_0_r. reflexivity.
Qed.

Section Validation.

Context {G : Attacks}.

Lemma violatesSpec_unfold (b : Board) (c : Color) (r : Role) :
  violatesSpec b c r
  = (SquareSet.size (Board.pieces b c r) >? maxNum (PIECE_SPECS r))
    || SquareSet.intersects (Board.pieces b c r) (forbidden_squares (PIECE_SPECS r) c).
Proof. unfold violatesSpec. reflexivity. Qed.

Lemma violatesSpec_unrestricted (b : Board) (c : Color) (r : Role) :
  forbidden_squares (PIECE_SPECS r) c = SquareSet.empty ->
  violatesSpec b c r = true ->
  maxNum (PIECE_SPECS r) < SquareSet.size (Board.pieces b c r).
Proof.
  intros Hf Hr. rewrite violatesSpec_unfold, Hf, intersects_empty_r, orb_false_r in Hr.
  apply Z.gtb_lt in Hr. exact Hr.
Qed.

Lemma violatesSpec_false (b : Board) (c : Color) (r : Role) :
  violatesSpec b c r = false
  <-> SquareSet.size (Board.pieces b c r) <= maxNum (PIECE_SPECS r)
      /\ SquareSet.isDisjoint (Board.pieces b c r) (forbidden_squares (PIECE_SPECS r) c) = true.
Proof.
  unfold violatesSpec, SquareSet.intersects, SquareSet.isDisjoint, SquareSet.nonEmpty.
  cbv zeta. rewrite orb_false_iff, negb_false_iff, Z.gtb_ltb, Z.ltb_ge. tauto.
Qed.

Lemma validateRoles_None (b : Board) (c : Color) (rs : list Role) :
  validateRoles b c rs = None <-> forall r, In r rs -> violatesSpec b c r = false.
Proof.
  induction rs as [|r rs IH]; cbn [validateRoles].
  - split; [intros _ r [] | reflexivity].
  - destruct (violatesSpec b c r) eqn:Hr.
    + split; [discriminate|]. intros H.
      rewrite (H r (or_introl eq_refl)) in Hr. discriminate.
    + rewrite IH. split.
      * intros H r' [<-|Hin]; [exact Hr | exact (H r' Hin)].
      * intros H r' Hin. apply H. right. exact Hin.
Qed.

Lemma validateRoles_Some (b : Board) (c : Color) (rs : list Role) (e : IllegalSetup) :
  validateRoles b c rs = Some e ->
  exists r, violatesSpec b c r = true /\ e = err (PIECE_SPECS r).
Proof.
  induction rs as [|r rs IH]; cbn [validateRoles]; [discriminate|].
  destruct (violatesSpec b c r) eqn:Hr.
  - intros H. injection H as <-. exists r. split; [exact Hr | reflexivity].
  - exact IH.
Qed.

Lemma validateColors_None (b : Board) :
  validateColors b COLORS = None <-> forall c r, violatesSpec b c r = false.
Proof.
  unfold COLORS. cbn [validateColors].
  destruct (validateRoles b red ROLES) eqn:Hred.
  - split; [discriminate|]. intros H.
    assert (validateRoles b red ROLES = None)
      by (apply validateRoles_None; intros r _; apply H).
    congruence.
  - destruct (validateRoles b black ROLES) eqn:Hblack.
    + split; [discriminate|]. intros H.
      assert (validateRoles b black ROLES = None)
        by (apply validateRoles_None; intros r _; apply H).
      congruence.
    + split; [|reflexivity]. intros _ c r.
      destruct c; [apply (proj1 (validateRoles_None b red ROLES) Hred)
                  |apply (proj1 (validateRoles_None b black ROLES) Hblack)];
        apply In_ROLES.
Qed.

Lemma validateColors_Some (b : Board) (e : IllegalSetup) :
  validateColors b COLORS = Some e ->
  exists c r, violatesSpec b c r = true /\ e = err (PIECE_SPECS r).
Proof.
  unfold COLORS. cbn [validateColors].
  destruct (validateRoles b red ROLES) eqn:Hred.
  - intros H. injection H as <-. exists red. exact (validateRoles_Some _ _ _ _ Hred).
  - destruct (validateRoles b black ROLES) eqn:Hblack; [|discriminate].
    intros H. injection H as <-. exists black. exact (validateRoles_Some _ _ _ _ Hblack).
Qed.

Lemma validate_ok_kings (P : Position) :
  validate P = Ok tt ->
  exists k1 k2,
    Board.kingOf (board P) (turn P) = Some k1
    /\ Board.kingOf (board P) (opposite (turn P)) = Some k2
    /\ (squareFile k1 =? squareFile k2)
       && SquareSet.isDisjoint (between k1 k2) (Board.occupied (board P)) = false
    /\ SquareSet.isEmpty (attackers P k2 (turn P) (Board.occupied (board P))) = true.
Proof.
  unfold validate.
  destruct (SquareSet.isEmpty (Board.occupied (board P))); [discriminate|].
  destruct (Board.kingOf (board P) (turn P)) as [k1|]; [|discriminate].
  destruct (Board.kingOf (board P) (opposite (turn P))) as [k2|]; [|discriminate].
  destruct ((squareFile k1 =? squareFile k2)
            && SquareSet.isDisjoint (between k1 k2) (Board.occupied (board P))) eqn:Hf;
    [discriminate|].
  unfold SquareSet.nonEmpty.
  destruct (SquareSet.isEmpty (attackers P k2 (turn P) (Board.occupied (board P)))) eqn:Ha;
    cbn [negb]; [|discriminate].
  intros _. exists k1, k2. repeat split; assumption.
Qed.

(** X4. Validation succeeds exactly on the positions that have a piece on the
    board, one king of each colour, kings that do not face each other, no
    attack of the side to move on the other king, and, for every colour and
    role, no more pieces than the role allows and none on a square
    forbidden to it. *)
Theorem validate_ok_iff (P : Position) :
  validate P = Ok tt
  <-> SquareSet.isEmpty (Board.occupied (board P)) = false
      /\ exists k1 k2,
           Board.kingOf (board P) (turn P) = Some k1
           /\ Board.kingOf (board P) (opposite (turn P)) = Some k2
           /\ ~ (squareFile k1 = squareFile k2
                 /\ SquareSet.isDisjoint (between k1 k2) (Board.occupied (board P)) = true)
           /\ SquareSet.isEmpty
                (attackers P k2 (turn P) (Board.occupied (board P))) = true
           /\ forall c r,
                SquareSet.size (Board.pieces (board P) c r) <= maxNum (PIECE_SPECS r)
                /\ SquareSet.isDisjoint (Board.pieces (board P) c r)
                                        (forbidden_squares (PIECE_SPECS r) c) = true.
Proof.
  unfold validate.
  destruct (SquareSet.isEmpty (Board.occupied (board P))) eqn:He.
  { split; [discriminate | intros [H _]; discriminate]. }
  destruct (Board.kingOf (board P) (turn P)) as [k1|] eqn:Hk1.
  2:{ split; [discriminate | intros [_ [? [? [H _]]]]; discriminate]. }
  destruct (Board.kingOf (board P) (opposite (turn P))) as [k2|] eqn:Hk2.
  2:{ split; [discriminate | intros [_ [? [? [_ [H _]]]]]; discriminate]. }
  destruct ((squareFile k1 =? squareFile k2)
            && SquareSet.isDisjoint (between k1 k2) (Board.occupied (board P))) eqn:Hf.
  { split; [discriminate|]. intros [_ [a [b [Ha [Hb [Hn _]]]]]].
    injection Ha as <-. injection Hb as <-.
    apply andb_true_iff in Hf. destruct Hf as [Hf1 Hf2]. apply Z.eqb_eq in Hf1.
    exfalso. apply Hn. split; assumption. }
  unfold SquareSet.nonEmpty.
  destruct (SquareSet.isEmpty (attackers P k2 (turn P) (Board.occupied (board P)))) eqn:Ha;
    cbn [negb].
  2:{ split; [discriminate|]. intros [_ [a [b [_ [Hb [_ [H _]]]]]]].
      injection Hb as <-. congruence. }
  destruct (validateColors (board P) COLORS) as [e|] eqn:Hv.
  - split; [discriminate|]. intros [_ [a [b [_ [_ [_ [_ H]]]]]]].
    assert (validateColors (board P) COLORS = None); [|congruence].
    apply validateColors_None. intros c r. apply violatesSpec_false. apply H.
  - split; [|reflexivity]. intros _. split; [reflexivity|].
    exists k1, k2. split; [reflexivity|]. split; [reflexivity|].
    split.
    + intros [H1 H2]. rewrite H1, Z.eqb_refl, H2 in Hf. discriminate.
    + split; [exact Ha|]. intros c r. apply violatesSpec_false.
      apply (proj1 (validateColors_None _) Hv).
Qed.


(** X5. Every error of validation means what its name says: [Empty] an empty
    board; [Kings] a side without its one king, or a king outside its
    palace; [FacingKings] two kings on one file with nothing between them;
    [OppositeCheck] an attack on the king of the side not to move; the error
    of a role, a colour with too many pieces of the role or one on a
    forbidden square; and for horses, chariots and cannons, which no square
    is forbidden to, a colour with more than two of them. *)
Theorem validate_error_meaning (P : Position) (e : IllegalSetup) :
  validate P = Err e ->
  let b := board P in
  match e with
  | Empty => SquareSet.isEmpty (Board.occupied b) = true
  | Kings =>
      Board.kingOf b (turn P) = None \/ Board.kingOf b (opposite (turn P)) = None
      \/ exists c, violatesSpec b c king = true
  | FacingKings =>
      exists k1 k2,
        Board.kingOf b (turn P) = Some k1 /\ Board.kingOf b (opposite (turn P)) = Some k2
        /\ squareFile k1 = squareFile k2
        /\ SquareSet.isDisjoint (between k1 k2) (Board.occupied b) = true
  | OppositeCheck =>
      exists k2,
        Board.kingOf b (opposite (turn P)) = Some k2
        /\ SquareSet.nonEmpty (attackers P k2 (turn P) (Board.occupied b)) = true
  | Advisors => exists c, violatesSpec b c advisor = true
  | Elephants => exists c, violatesSpec b c elephant = true
  | Horses => exists c, 2 < SquareSet.size (Board.pieces b c horse)
  | Chariots => exists c, 2 < SquareSet.size (Board.pieces b c chariot)
  | Cannons => exists c, 2 < SquareSet.size (Board.pieces b c cannon)
  | Pawns => exists c, violatesSpec b c pawn = true
  end.
Proof.
  unfold validate. cbv zeta.
  destruct (SquareSet.isEmpty (Board.occupied (board P))) eqn:He.
  { intros H. injection H as <-. reflexivity. }
  destruct (Board.kingOf (board P) (turn P)) as [k1|] eqn:Hk1.
  2:{ intros H. injection H as <-. left. reflexivity. }
  destruct (Board.kingOf (board P) (opposite (turn P))) as [k2|] eqn:Hk2.
  2:{ intros H. injection H as <-. right. left. reflexivity. }
  destruct ((squareFile k1 =? squareFile k2)
            && SquareSet.isDisjoint (between k1 k2) (Board.occupied (board P))) eqn:Hf.
  { intros H. injection H as <-. apply andb_true_iff in Hf. destruct Hf as [Hf1 Hf2].
    apply Z.eqb_eq in Hf1. exists k1, k2. repeat split; try reflexivity; assumption. }
  destruct (SquareSet.nonEmpty (attackers P k2 (turn P) (Board.occupied (board P)))) eqn:Ha.
  { intros H. injection H as <-. exists k2. split; [reflexivity | exact Ha]. }
  destruct (validateColors (board P) COLORS) as [e'|] eqn:Hv; [|discriminate].
  intros H. injection H as <-.
  apply validateColors_Some in Hv. destruct Hv as [c [r [Hr ->]]].
  destruct r; cbn [PIECE_SPECS err].
  - right. right. exists c. exact Hr.
  - exists c. exact Hr.
  - exists c. exact Hr.
  - exists c. exact (violatesSpec_unrestricted _ c horse eq_refl Hr).
  - exists c. exact (violatesSpec_unrestricted _ c chariot eq_refl Hr).
  - exists c. exact (violatesSpec_unrestricted _ c cannon eq_refl Hr).
  - exists c. exact Hr.
Qed.

End Validation.

Lemma validate_ok_iff_witness :
  exists k1 k2,
    Board.kingOf (board startPosition) red = Some k1
    /\ Board.kingOf (board startPosition) black = Some k2
    /\ SquareSet.isEmpty
         (@attackers xiangqiAttacks startPosition k2 red
                     (Board.occupied (board startPosition))) = true.
Proof.
  assert (Hv : @validate xiangqiAttacks startPosition = Ok tt) by (vm_compute; reflexivity).
  destruct (proj1 (@validate_ok_iff xiangqiAttacks startPosition) Hv)
    as [_ [k1 [k2 [H1 [H2 [_ [H3 _]]]]]]].
  exists k1, k2. split; [exact H1|]. split; [exact H2 | exact H3].
Defined.

Lemma validate_error_meaning_witness :
  exists c, @violatesSpec xiangqiAttacks (board sixPawnsPosition) c pawn = true.
Proof.
  assert (Hv : @validate xiangqiAttacks sixPawnsPosition = Err Pawns)
    by (vm_compute; reflexivity).
  exact (@validate_error_meaning xiangqiAttacks sixPawnsPosition Pawns Hv).
Defined.

(** ** Validation and the predicates of the engine agree *)

Lemma opposite_involutive (c : Color) : opposite (opposite c) = c.
Proof. destruct c; reflexivity. Qed.

Section Agreement.

Context {G : Attacks}.

Lemma attackers_board (P Q : Position) (sq : Square) (c : Color) (occ : SquareSet) :
  board Q = board P -> attackers Q sq c occ = attackers P sq c occ.
Proof. intros H. unfold attackers. rewrite H. reflexivity. Qed.

Lemma isFacingKings_board (P Q : Position) :
  board Q = board P -> isFacingKings Q = isFacingKings P.
Proof. intros H. unfold isFacingKings. rewrite H. reflexivity. Qed.

Lemma between_sym (a b : Square) :
  betweenSymmetric = true ->
  SquareSet.validSquare a = true -> SquareSet.validSquare b = true ->
  between a b = between b a.
Proof.
  intros H Ha Hb. unfold betweenSymmetric in H.
  pose proof (proj1 (forallb_forall _ _) H a (proj2 (In_allSquares a) Ha)) as H1.
  pose proof (proj1 (forallb_forall _ _) H1 b (proj2 (In_allSquares b) Hb)) as H2.
  apply Z.eqb_eq in H2. exact H2.
Qed.

Lemma kingOf_valid (b : Board) (c : Color) (k : Square) :
  Board.kingOf b c = Some k -> SquareSet.validSquare k = true.
Proof. intros H. exact (has_valid _ _ (kingOf_has _ _ _ H)). Qed.

Lemma between_min_max (k1 k2 : Square) :
  betweenSymmetric = true ->
  SquareSet.validSquare k1 = true -> SquareSet.validSquare k2 = true ->
  between (Z.min k1 k2) (Z.max k1 k2) = between k1 k2.
Proof.
  intros H H1 H2. destruct (Z.le_gt_cases k1 k2) as [Hle|Hgt].
  - rewrite Z.min_l, Z.max_r by lia. reflexivity.
  - rewrite Z.min_r, Z.max_l by lia. apply between_sym; assumption.
Qed.

(** X6. On a position that validation accepts, with a well-formed board and a
    [between] that is symmetric, [isFacingKings] is false and the side not
    to move is not in check: the two tests of validation agree with the
    predicates of the engine, which find the kings in another way. *)
Theorem validate_agrees_with_predicates (P : Position) :
  validate P = Ok tt ->
  Board.wf (board P) = true ->
  betweenSymmetric = true ->
  isFacingKings P = false
  /\ isCheck (withTurn P (opposite (turn P))) None = false.
Proof.
  intros Hv Hwf Hsym. pose proof (Board_wf_inv _ Hwf) as Hinv.
  apply validate_ok_kings in Hv.
  destruct Hv as [k1 [k2 [Hk1 [Hk2 [Hnf Hatt]]]]].
  split.
  - rewrite (isFacingKings_kings P (turn P) k1 k2 Hinv Hk1 Hk2).
    rewrite (between_min_max k1 k2 Hsym (kingOf_valid _ _ _ Hk1) (kingOf_valid _ _ _ Hk2)).
    exact Hnf.
  - assert (Hkq : Board.kingOf (board (withTurn P (opposite (turn P))))
                               (turn (withTurn P (opposite (turn P)))) = Some k2)
      by exact Hk2.
    rewrite (isCheck_kingOf _ _ Hkq).
    rewrite (attackers_board P (withTurn P (opposite (turn P))) _ _ _ eq_refl).
    cbn [withTurn turn board]. rewrite opposite_involutive, Hatt. reflexivity.
Qed.

End Agreement.

Lemma validate_agrees_with_predicates_witness :
  @isFacingKings xiangqiAttacks startPosition = false
  /\ @isCheck xiangqiAttacks (withTurn startPosition black) None = false.
Proof.
  apply (@validate_agrees_with_predicates xiangqiAttacks startPosition);
    vm_compute; reflexivity.
Defined.

(** ** Setups *)

(** X7. [toSetup] clamps the counters: the halfmove clock to at most 150, the
    fullmove counter into 1..9999; counters in range are kept, and taking the
    setup of the position of a setup taken by [toSetup] gives that setup
    again. *)
Theorem toSetup_clamps (P : Position) :
  let s := toSetup P in
  Setup.halfmoves s <= 150
  /\ 1 <= Setup.fullmoves s <= 9999
  /\ (halfmoves P <= 150 -> Setup.halfmoves s = halfmoves P)
  /\ (1 <= fullmoves P <= 9999 -> Setup.fullmoves s = fullmoves P)
  /\ toSetup (setupUnchecked s) = s.
Proof.
  cbv zeta. unfold toSetup, setupUnchecked.
  cbn [Setup.board Setup.turn Setup.halfmoves Setup.fullmoves board turn halfmoves fullmoves].
  rewrite !clone_eq.
  split; [lia|]. split; [lia|]. split; [lia|]. split; [lia|].
  f_equal; lia.
Qed.

Lemma toSetup_clamps_witness :
  Setup.halfmoves (toSetup (mkPosition (board startPosition) red 12 40)) = 12
  /\ Setup.fullmoves (toSetup (mkPosition (board startPosition) red 12 40)) = 40.
Proof.
  destruct (toSetup_clamps (mkPosition (board startPosition) red 12 40))
    as [_ [_ [Hh [Hf _]]]].
  split; [apply Hh | apply Hf]; vm_compute; intuition discriminate.
Defined.

(** ** Legal moves *)

Lemma fold_without_wf (bad : Square -> bool) (l : list Square) (acc : SquareSet) :
  SquareSet.wf acc = true ->
  SquareSet.wf (fold_left (fun a x => if bad x then SquareSet.without a x else a) l acc) = true.
Proof.
  revert acc. induction l as [|a l IH]; intros acc H; cbn [fold_left]; [exact H|].
  apply IH. destruct (bad a); [apply wf_without|]; exact H.
Qed.

Lemma in_map_pair {A B : Type} (f : A -> B) (l : list A) (a : A) (d : B) :
  In (a, d) (map (fun x => (x, f x)) l) <-> In a l /\ d = f a.
Proof.
  induction l as [|x l IH]; cbn [map In].
  - tauto.
  - rewrite IH. split.
    + intros [H|H]; [injection H as -> ->; tauto | tauto].
    + intros [[->|H] ->]; [left; reflexivity | right; tauto].
Qed.

Section Legality.

Context {G : Attacks}.

Lemma allDests_unfold (P : Position) (c : option Context) :
  allDests P c
  = map (fun square => (square, dests P square (Some (ctxOr c P))))
        (SquareSet.squares (Board.byColor (board P) (turn P))).
Proof. unfold allDests. reflexivity. Qed.

(** The context argument of [dests] is not used. *)
Lemma dests_ctx (P : Position) (s : Square) (c c' : option Context) :
  dests P s c = dests P s c'.
Proof. unfold dests. reflexivity. Qed.

Lemma hasDests_ctx (P : Position) (c : option Context) :
  hasDests P (Some (ctxOr c P)) = hasDests P c.
Proof. unfold hasDests, ctxOr. reflexivity. Qed.

Lemma dests_wf (P : Position) (s : Square) (c : option Context) :
  (forall piece, SquareSet.wf (attacks piece s (Board.occupied (board P))) = true) ->
  SquareSet.wf (dests P s c) = true.
Proof.
  intros Hg. unfold dests.
  destruct (Board.get (board P) s) as [piece|]; [|apply wf_empty].
  destruct (negb (Color_eqb (color piece) (turn P))); [apply wf_empty|].
  cbv zeta.
  apply (fold_without_wf
           (fun dest => isCheck (tryMove P s piece dest) None
                        || isFacingKings (tryMove P s piece dest))).
  unfold pseudoDests. apply wf_diff. apply Hg.
Qed.

Lemma isLegal_has (P : Position) (m : Move) (c : option Context) :
  isLegal P m c = SquareSet.has (dests P (from m) c) (to m).
Proof. unfold isLegal. reflexivity. Qed.

Lemma legal_from_side_to_move (P : Position) (m : Move) (c : option Context) :
  Board_inv (board P) ->
  isLegal P m c = true ->
  SquareSet.has (Board.byColor (board P) (turn P)) (from m) = true.
Proof.
  intros Hinv H. rewrite isLegal_has in H. apply dests_has in H.
  destruct H as [piece [Hg [Hc _]]].
  apply (get_Some _ Hinv) in Hg. destruct Hg as [Hg _]. rewrite Hc in Hg. exact Hg.
Qed.

(** X9. A legal move moves a piece of the side to move to a square its piece
    reaches and that holds no piece of the mover. On a well-formed board
    the destination is another square than the origin, and a piece standing
    on it is a piece of the other side. *)
Theorem isLegal_move (P : Position) (m : Move) (c : option Context) :
  isLegal P m c = true ->
  exists piece,
    Board.get (board P) (from m) = Some piece
    /\ color piece = turn P
    /\ SquareSet.has (attacks piece (from m) (Board.occupied (board P))) (to m) = true
    /\ SquareSet.has (Board.byColor (board P) (turn P)) (to m) = false
    /\ (Board.wf (board P) = true ->
        to m <> from m
        /\ forall q, Board.get (board P) (to m) = Some q -> color q = opposite (turn P)).
Proof.
  intros H. rewrite isLegal_has in H. apply dests_has in H.
  destruct H as [piece [Hg [Hc [Hp _]]]].
  rewrite pseudoDests_has in Hp. apply andb_true_iff in Hp. destruct Hp as [Ha Hfree].
  apply negb_true_iff in Hfree.
  exists piece. split; [exact Hg|]. split; [exact Hc|]. split; [exact Ha|].
  split; [exact Hfree|].
  intros Hwf. pose proof (Board_wf_inv _ Hwf) as Hinv. split.
  - intros Heq. apply (get_Some _ Hinv) in Hg. destruct Hg as [Hg _].
    rewrite Hc, <- Heq in Hg. congruence.
  - intros q Hq. apply (get_Some _ Hinv) in Hq. destruct Hq as [Hq _].
    destruct (color_cases (turn P) (color q)) as [Heq|Heq]; [|exact Heq].
    rewrite Heq in Hq. congruence.
Qed.

(** X10. [hasDests] says whether a legal move exists: on a well-formed board and
    with attack generators that return squares of the grid, [hasDests] is
    true exactly when [isLegal] accepts some move. *)
Theorem hasDests_iff_legal_move (P : Position) (c : option Context) :
  Board.wf (board P) = true ->
  (forall piece s, SquareSet.wf (attacks piece s (Board.occupied (board P))) = true) ->
  (hasDests P c = true <-> exists m, isLegal P m c = true).
Proof.
  intros Hwf Hg. pose proof (Board_wf_inv _ Hwf) as Hinv. split.
  - unfold hasDests. cbv zeta. intros H. apply existsb_exists in H.
    destruct H as [s [_ Hs]].
    apply (proj1 (wf_nonEmpty _ (dests_wf P s _ (fun piece => Hg piece s)))) in Hs.
    destruct Hs as [d Hd]. exists (mkMove s d).
    rewrite isLegal_has. cbn [from to]. rewrite (dests_ctx P s c (Some (ctxOr c P))).
    exact Hd.
  - intros [m Hm]. pose proof (legal_from_side_to_move P m c Hinv Hm) as Hfrom.
    rewrite isLegal_has in Hm.
    unfold hasDests. cbv zeta. apply existsb_exists. exists (from m).
    split; [apply (proj2 (In_squares _ _)); exact Hfrom|].
    unfold SquareSet.nonEmpty. apply negb_true_iff.
    destruct (SquareSet.isEmpty (dests P (from m) (Some (ctxOr c P)))) eqn:He; [|reflexivity].
    rewrite (dests_ctx P (from m) c (Some (ctxOr c P))) in Hm.
    rewrite (isEmpty_has _ (to m) He) in Hm. discriminate.
Qed.

(** X11. [allDests] and [isLegal] agree: on a well-formed board a move is legal
    exactly when [allDests] has an entry for its origin whose set contains
    its destination. *)
Theorem allDests_iff_isLegal (P : Position) (m : Move) (c : option Context) :
  Board.wf (board P) = true ->
  (isLegal P m c = true
   <-> exists d, In (from m, d) (allDests P c) /\ SquareSet.has d (to m) = true).
Proof.
  intros Hwf. pose proof (Board_wf_inv _ Hwf) as Hinv.
  rewrite allDests_unfold, isLegal_has. split.
  - intros Hm.
    assert (Hl : isLegal P m c = true) by (rewrite isLegal_has; exact Hm).
    pose proof (legal_from_side_to_move P m c Hinv Hl) as Hfrom.
    exists (dests P (from m) (Some (ctxOr c P))). split.
    + apply (in_map_pair (fun square => dests P square (Some (ctxOr c P)))).
      split; [apply (proj2 (In_squares _ _)); exact Hfrom | reflexivity].
    + rewrite (dests_ctx P (from m) (Some (ctxOr c P)) c). exact Hm.
  - intros [d [Hin Hd]].
    apply (in_map_pair (fun square => dests P square (Some (ctxOr c P)))) in Hin.
    destruct Hin as [_ Heq]. rewrite Heq in Hd.
    rewrite (dests_ctx P (from m) c (Some (ctxOr c P))). exact Hd.
Qed.

(** X12. The game is over exactly when there is an outcome: [isEnd] is true if
    and only if [outcome] returns one. *)
Theorem isEnd_iff_outcome (P : Position) (c : option Context) :
  isEnd P c = match outcome P c with Some _ => true | None => false end.
Proof.
  unfold isEnd, outcome, isCheckmate, isStalemate. cbv zeta.
  change (ctxOr (Some (ctxOr c P)) P) with (ctxOr c P).
  rewrite !hasDests_ctx. unfold SquareSet.nonEmpty.
  destruct (SquareSet.isEmpty (Context.checkers (ctxOr c P)));
    destruct (hasDests P c); destruct (isInsufficientMaterial P || is50Moves P);
    reflexivity.
Qed.

(** X13. A legal move never leaves the mover in check. On a well-formed board on
    which the side to move has a king, after [play] of a legal move the king
    of the side that moved stands where the move put or left it, no piece of
    the side now to move attacks it, the kings do not face each other, and
    the side that moved is not in check. *)
Theorem play_legal_keeps_king_safe (P : Position) (m : Move) (k : Square) :
  Board.wf (board P) = true ->
  Board.kingOf (board P) (turn P) = Some k ->
  isLegal P m None = true ->
  let Q := play P m in
  let k' := if from m =? k then to m else k in
  turn Q = opposite (turn P)
  /\ Board.kingOf (board Q) (turn P) = Some k'
  /\ SquareSet.isEmpty (attackers Q k' (turn Q) (Board.occupied (board Q))) = true
  /\ isFacingKings Q = false
  /\ isCheck (withTurn Q (turn P)) None = false.
Proof.
  intros Hwf Hk Hm. cbv zeta. pose proof (Board_wf_inv _ Hwf) as Hinv.
  rewrite isLegal_has in Hm. apply dests_has in Hm.
  destruct Hm as [piece [Hg [Hc [Hp Hsafe]]]].
  apply orb_false_iff in Hsafe. destruct Hsafe as [Hcheck Hface].
  pose proof (has_valid _ _ Hp) as Hd.
  pose proof (pseudoDests_side_to_move P piece (from m) (to m) Hc Hp) as Hfree.
  assert (Hb : board (play P m) = board (tryMove P (from m) piece (to m)))
    by (rewrite play_board, Hg, tryMove_board; reflexivity).
  assert (Hkq : Board.kingOf (board (tryMove P (from m) piece (to m)))
                             (turn (tryMove P (from m) piece (to m)))
                = Some (if from m =? k then to m else k)).
  { rewrite tryMove_board, tryMove_turn. rewrite <- Hc in Hk |- *.
    exact (moved_kingOf (board P) Hinv (from m) (to m) piece Hd k Hg Hfree Hk). }
  rewrite (isCheck_kingOf _ _ Hkq) in Hcheck. apply negb_false_iff in Hcheck.
  rewrite tryMove_turn in Hkq, Hcheck. rewrite <- Hb in Hkq, Hcheck.
  rewrite <- (attackers_board _ (play P m) _ _ _ Hb) in Hcheck.
  split; [apply play_turn|]. split; [exact Hkq|].
  split; [rewrite play_turn; exact Hcheck|].
  split; [rewrite (isFacingKings_board _ _ Hb); exact Hface|].
  assert (Hkw : Board.kingOf (board (withTurn (play P m) (turn P)))
                             (turn (withTurn (play P m) (turn P)))
                = Some (if from m =? k then to m else k)) by exact Hkq.
  rewrite (isCheck_kingOf _ _ Hkw).
  rewrite (attackers_board (play P m) (withTurn (play P m) (turn P)) _ _ _ eq_refl).
  cbn [withTurn turn board]. rewrite Hcheck. reflexivity.
Qed.

End Legality.

Lemma wf_fromSquares (l : list Square) : SquareSet.wf (SquareSet.fromSquares l) = true.
Proof.
  unfold SquareSet.fromSquares.
  assert (H : forall acc, SquareSet.wf acc = true ->
                          SquareSet.wf (fold_left SquareSet.with_ l acc) = true).
  { induction l as [|a l IH]; intros acc Hacc; cbn [fold_left]; [exact Hacc|].
    apply IH, wf_with, Hacc. }
  apply H, wf_empty.
Qed.

(** The generators of the concrete geometry return squares of the grid. *)
Lemma Geometry_attacks_wf (piece : Piece) (s : Square) (occ : SquareSet) :
  SquareSet.wf (@attacks xiangqiAttacks piece s occ) = true.
Proof.
  change (SquareSet.wf (Geometry.attacks piece s occ) = true).
  unfold Geometry.attacks, Geometry.kingAttacks, Geometry.advisorAttacks,
    Geometry.elephantAttacks, Geometry.horseAttacks, Geometry.chariotAttacks,
    Geometry.cannonAttacks, Geometry.pawnAttacks, Geometry.onSquares.
  destruct (role piece); apply wf_fromSquares.
Qed.

Lemma isLegal_move_witness :
  exists piece,
    Board.get (board startPosition) 19 = Some piece
    /\ color piece = red
    /\ SquareSet.has (Board.byColor (board startPosition) red) 82 = false.
Proof.
  assert (Hm : @isLegal xiangqiAttacks startPosition (mkMove 19 82) None = true)
    by (vm_compute; reflexivity).
  destruct (@isLegal_move xiangqiAttacks startPosition (mkMove 19 82) None Hm)
    as [piece [Hg [Hc [_ [Hfree _]]]]].
  exists piece. split; [exact Hg|]. split; [exact Hc | exact Hfree].
Defined.

Lemma hasDests_iff_legal_move_witness :
  exists m, @isLegal xiangqiAttacks startPosition m None = true.
Proof.
  assert (Hwf : Board.wf (board startPosition) = true) by (vm_compute; reflexivity).
  assert (Hd : @hasDests xiangqiAttacks startPosition None = true)
    by (vm_compute; reflexivity).
  exact (proj1 (@hasDests_iff_legal_move xiangqiAttacks startPosition None Hwf
                  (fun piece s => Geometry_attacks_wf piece s _)) Hd).
Defined.

Lemma allDests_iff_isLegal_witness :
  exists d, In (19, d) (@allDests xiangqiAttacks startPosition None)
            /\ SquareSet.has d 82 = true.
Proof.
  assert (Hwf : Board.wf (board startPosition) = true) by (vm_compute; reflexivity).
  assert (Hm : @isLegal xiangqiAttacks startPosition (mkMove 19 82) None = true)
    by (vm_compute; reflexivity).
  exact (proj1 (@allDests_iff_isLegal xiangqiAttacks startPosition (mkMove 19 82) None Hwf)
               Hm).
Defined.

Lemma play_legal_keeps_king_safe_witness :
  let Q := play startPosition (mkMove 19 82) in
  turn Q = black
  /\ Board.kingOf (board Q) red = Some 4
  /\ SquareSet.isEmpty (@attackers xiangqiAttacks Q 4 black (Board.occupied (board Q))) = true
  /\ @isFacingKings xiangqiAttacks Q = false.
Proof.
  intros Q.
  assert (Hwf : Board.wf (board startPosition) = true) by (vm_compute; reflexivity).
  assert (Hk : Board.kingOf (board startPosition) (turn startPosition) = Some 4)
    by (vm_compute; reflexivity).
  assert (Hm : @isLegal xiangqiAttacks startPosition (mkMove 19 82) None = true)
    by (vm_compute; reflexivity).
  destruct (@play_legal_keeps_king_safe xiangqiAttacks startPosition (mkMove 19 82) 4
              Hwf Hk Hm) as [Ht [Hkq [Ha [Hf _]]]].
  split; [exact Ht|]. split; [exact Hkq|]. split; [exact Ha | exact Hf].
Defined.

(** ** Attackers and check *)

Lemma size_isEmpty (s : SquareSet) : SquareSet.isEmpty s = true -> SquareSet.size s = 0.
Proof. intros H. unfold SquareSet.size. rewrite (squares_isEmpty s H). reflexivity. Qed.

Section Checks.

Context {G : Attacks}.

Lemma attackers_wf (P : Position) (sq : Square) (c : Color) (occ : SquareSet) :
  Board_inv (board P) -> SquareSet.wf (attackers P sq c occ) = true.
Proof.
  intros Hinv. unfold attackers, attacksTo. apply wf_land_l. apply (inv_wf_color _ Hinv).
Qed.

Lemma attackers_has_piece (P : Position) (sq : Square) (c : Color) (occ : SquareSet)
    (x : Square) :
  Board_inv (board P) ->
  (SquareSet.has (attackers P sq c occ) x = true
   <-> exists r, Board.get (board P) x = Some (mkPiece c r)
                 /\ SquareSet.has (attackFrom r c sq occ) x = true).
Proof.
  intros Hinv. unfold attackers. rewrite attacksTo_has. unfold attacksToRoles.
  rewrite !has_union, !has_intersect. split.
  - intros H. apply andb_true_iff in H. destruct H as [Hc Hor].
    repeat (apply orb_true_iff in Hor; destruct Hor as [Hor|Hor]);
      apply andb_true_iff in Hor; destruct Hor as [Ha Hr];
      [exists chariot | exists horse | exists elephant | exists advisor
      | exists king | exists cannon | exists pawn];
      (split; [apply (get_Some _ Hinv); split; assumption | exact Ha]).
  - intros [r [Hg Ha]]. apply (get_Some _ Hinv) in Hg. cbn [color role] in Hg.
    destruct Hg as [Hc Hr]. rewrite Hc. cbn [andb].
    destruct r; unfold attackFrom in Ha; rewrite Ha, Hr; cbn [andb];
      rewrite ?orb_true_r; reflexivity.
Qed.

Lemma isCheck_no_king (P : Position) :
  Board.kingOf (board P) (turn P) = None -> isCheck P None = false.
Proof.
  intros H. unfold isCheck, ctxOr. rewrite (ctx_no_king P H). reflexivity.
Qed.

(** X14. The attackers of a square are the pieces of the attacking colour that
    stand on a square from which their role attacks it: on a well-formed
    board a square is in [attackers] exactly when it holds a piece of that
    colour whose role's attack bitboard for the target contains it. *)
Theorem attackers_are_attacking_pieces (P : Position) (sq : Square) (c : Color)
    (occ : SquareSet) (x : Square) :
  Board.wf (board P) = true ->
  (SquareSet.has (attackers P sq c occ) x = true
   <-> exists r, Board.get (board P) x = Some (mkPiece c r)
                 /\ SquareSet.has (attackFrom r c sq occ) x = true).
Proof. intros Hwf. exact (attackers_has_piece P sq c occ x (Board_wf_inv _ Hwf)). Qed.

(** X15. The side to move is in check exactly when it has a king and some piece
    of the other side stands on a square from which its role attacks that
    king. *)
Theorem isCheck_iff_attacked (P : Position) :
  Board.wf (board P) = true ->
  (isCheck P None = true
   <-> exists k x r,
         Board.kingOf (board P) (turn P) = Some k
         /\ Board.get (board P) x = Some (mkPiece (opposite (turn P)) r)
         /\ SquareSet.has (attackFrom r (opposite (turn P)) k (Board.occupied (board P))) x
            = true).
Proof.
  intros Hwf. pose proof (Board_wf_inv _ Hwf) as Hinv.
  destruct (Board.kingOf (board P) (turn P)) as [k|] eqn:Hk.
  - rewrite (isCheck_kingOf P k Hk).
    change (negb (SquareSet.isEmpty ?s)) with (SquareSet.nonEmpty s).
    rewrite (wf_nonEmpty _ (attackers_wf P k _ _ Hinv)). split.
    + intros [x Hx]. apply (attackers_has_piece P _ _ _ x Hinv) in Hx.
      destruct Hx as [r [Hg Ha]]. exists k, x, r. split; [reflexivity|]. split; assumption.
    + intros [k' [x [r [Hk' [Hg Ha]]]]]. injection Hk' as <-. exists x.
      apply (attackers_has_piece P _ _ _ x Hinv). exists r. split; assumption.
  - split.
    + intros H. rewrite (isCheck_no_king P Hk) in H. discriminate H.
    + intros [k [x [r [Hk' _]]]]. discriminate Hk'.
Qed.

(** X16. [isImpossibleCheck] counts the checkers: it is true exactly when more
    than four pieces give check, so it is false without a king or without a
    check, and it implies [isCheck]. *)
Theorem isImpossibleCheck_counts_checkers (P : Position) :
  isImpossibleCheck P = (SquareSet.size (Context.checkers (ctx P)) >? 4)
  /\ (isImpossibleCheck P = true -> isCheck P None = true).
Proof.
  assert (Heq : isImpossibleCheck P = (SquareSet.size (Context.checkers (ctx P)) >? 4)).
  { unfold isImpossibleCheck, ctx.
    destruct (Board.kingOf (board P) (turn P)) as [k|]; cbn [Context.checkers].
    - cbv zeta.
      destruct (SquareSet.isEmpty
                  (attackers P k (opposite (turn P)) (Board.occupied (board P)))) eqn:He;
        [|reflexivity].
      rewrite (size_isEmpty _ He). reflexivity.
    - rewrite (size_isEmpty SquareSet.empty eq_refl). reflexivity. }
  split; [exact Heq|].
  rewrite Heq. intros H. unfold isCheck, ctxOr, SquareSet.nonEmpty.
  apply negb_true_iff.
  destruct (SquareSet.isEmpty (Context.checkers (ctx P))) eqn:He; [|reflexivity].
  rewrite (size_isEmpty _ He) in H. discriminate H.
Qed.

End Checks.

Lemma isCheck_iff_attacked_witness :
  exists k x r,
    Board.kingOf (board checkmatePosition) red = Some k
    /\ Board.get (board checkmatePosition) x = Some (mkPiece black r).
Proof.
  assert (Hwf : Board.wf (board checkmatePosition) = true) by (vm_compute; reflexivity).
  assert (Hc : @isCheck xiangqiAttacks checkmatePosition None = true)
    by (vm_compute; reflexivity).
  destruct (proj1 (@isCheck_iff_attacked xiangqiAttacks checkmatePosition Hwf) Hc)
    as [k [x [r [Hk [Hg _]]]]].
  exists k, x, r. split; [exact Hk | exact Hg].
Defined.

Lemma attackers_are_attacking_pieces_witness :
  exists r, Board.get (board checkmatePosition) 40 = Some (mkPiece black r).
Proof.
  assert (Hwf : Board.wf (board checkmatePosition) = true) by (vm_compute; reflexivity).
  assert (Ha : SquareSet.has
                 (@attackers xiangqiAttacks checkmatePosition 4 black
                             (Board.occupied (board checkmatePosition))) 40 = true)
    by (vm_compute; reflexivity).
  destruct (proj1 (@attackers_are_attacking_pieces xiangqiAttacks checkmatePosition 4 black
                     _ 40 Hwf) Ha) as [r [Hg _]].
  exists r. exact Hg.
Defined.

Lemma isImpossibleCheck_counts_checkers_witness :
  @isImpossibleCheck xiangqiAttacks checkmatePosition = false.
Proof.
  rewrite (proj1 (@isImpossibleCheck_counts_checkers xiangqiAttacks checkmatePosition)).
  vm_compute. reflexivity.
Defined.

(** ** The inverse attacks of pawns and horses *)

Lemma fold_step_has {A : Type} (f : SquareSet -> A -> SquareSet) (g : A -> Square -> bool)
    (l : list A) (acc : SquareSet) (y : Square) :
  (forall r a, SquareSet.has (f r a) y = SquareSet.has r y || g a y) ->
  SquareSet.has (fold_left f l acc) y = SquareSet.has acc y || existsb (fun a => g a y) l.
Proof.
  intros Hf. revert acc. induction l as [|a l IH]; intros acc; cbn [fold_left existsb].
  - rewrite orb_false_r. reflexivity.
  - rewrite IH, Hf, orb_assoc. reflexivity.
Qed.

Section InverseAttacks.

Context {G : Attacks}.

Lemma pawnInvAttacks_existsb (c : Color) (sq x : Square) :
  SquareSet.has (pawnInvAttacks c sq) x
  = existsb (fun dir => isValidStep sq (sq + dir) && SquareSet.validSquare x
                        && (x =? sq + dir))
            (PAWN_INV_DIRS c sq).
Proof.
  unfold pawnInvAttacks.
  rewrite (fold_step_has _ (fun dir y => isValidStep sq (sq + dir)
                                         && SquareSet.validSquare y && (y =? sq + dir))).
  - rewrite has_empty. reflexivity.
  - intros r dir. cbv zeta. destruct (isValidStep sq (sq + dir)).
    + rewrite has_with, orb_comm. reflexivity.
    + rewrite orb_false_r. reflexivity.
Qed.

Lemma horseInvAttacks_existsb (sq : Square) (occ : SquareSet) (x : Square) :
  SquareSet.has (horseInvAttacks sq occ) x
  = existsb (fun db => negb (SquareSet.has occ (sq + snd db))
                       && isValidStep sq (sq + fst db)
                       && SquareSet.validSquare x && (x =? sq + fst db))
            HORSE_DIR_INV_BLOCKERS.
Proof.
  unfold horseInvAttacks.
  rewrite (fold_step_has _ (fun db y => negb (SquareSet.has occ (sq + snd db))
                                        && isValidStep sq (sq + fst db)
                                        && SquareSet.validSquare y && (y =? sq + fst db))).
  - rewrite has_empty. reflexivity.
  - intros r db. cbv zeta. destruct (negb (SquareSet.has occ (sq + snd db))); cbn [andb].
    + destruct (isValidStep sq (sq + fst db)).
      * rewrite has_with, orb_comm. reflexivity.
      * rewrite orb_false_r. reflexivity.
    + rewrite orb_false_r. reflexivity.
Qed.

(** X17. A pawn attacks a square from the square behind it, in the direction the
    pawn advances, and from the two squares beside it when the attacked
    square lies across the river for the pawn; in each case only when the
    step is valid and the origin is on the grid. Red advances towards the
    higher squares and has crossed the river from square 45 on. *)
Theorem pawnInvAttacks_has (c : Color) (sq x : Square) :
  SquareSet.has (pawnInvAttacks c sq) x = true
  <-> SquareSet.validSquare x = true
      /\ isValidStep sq x = true
      /\ match c with
         | red => x = sq - 9 \/ (45 <= sq /\ (x = sq - 1 \/ x = sq + 1))
         | black => x = sq + 9 \/ (sq < 45 /\ (x = sq - 1 \/ x = sq + 1))
         end.
Proof.
  rewrite pawnInvAttacks_existsb, existsb_exists. split.
  - intros [dir [Hin H]].
    apply andb_true_iff in H. destruct H as [H Hx]. apply andb_true_iff in H.
    destruct H as [Hs Hv]. apply Z.eqb_eq in Hx. subst x.
    split; [exact Hv|]. split; [exact Hs|].
    unfold PAWN_INV_DIRS in Hin. destruct c.
    + destruct (Z.geb_spec sq 45); cbn [In] in Hin; lia.
    + destruct (Z.ltb_spec sq 45); cbn [In] in Hin; lia.
  - intros [Hv [Hs Hc]].
    assert (Hd : In (x - sq) (PAWN_INV_DIRS c sq)).
    { unfold PAWN_INV_DIRS. destruct c.
      - destruct (Z.geb_spec sq 45); cbn [In]; lia.
      - destruct (Z.ltb_spec sq 45); cbn [In]; lia. }
    exists (x - sq). split; [exact Hd|].
    replace (sq + (x - sq)) with x by lia.
    rewrite Hs, Hv, Z.eqb_refl. reflexivity.
Qed.

(** X18. A horse attacks a square from the eight squares of the table, each on
    the condition that the square of the horse's first step is not occupied,
    that the step is valid and that the origin is on the grid; a horse whose
    first step is blocked does not attack. *)
Theorem horseInvAttacks_has (sq : Square) (occ : SquareSet) (x : Square) :
  SquareSet.has (horseInvAttacks sq occ) x = true
  <-> SquareSet.validSquare x = true
      /\ isValidStep sq x = true
      /\ exists dir blocker,
           In (dir, blocker) HORSE_DIR_INV_BLOCKERS
           /\ x = sq + dir
           /\ SquareSet.has occ (sq + blocker) = false.
Proof.
  rewrite horseInvAttacks_existsb, existsb_exists. split.
  - intros [[dir blocker] [Hin H]]. cbn [fst snd] in H.
    apply andb_true_iff in H. destruct H as [H Hx]. apply andb_true_iff in H.
    destruct H as [H Hv]. apply andb_true_iff in H. destruct H as [Hb Hs].
    apply Z.eqb_eq in Hx. subst x. apply negb_true_iff in Hb.
    split; [exact Hv|]. split; [exact Hs|]. exists dir, blocker. tauto.
  - intros [Hv [Hs [dir [blocker [Hin [Hx Hb]]]]]]. subst x.
    exists (dir, blocker). split; [exact Hin|]. cbn [fst snd].
    rewrite Hb, Hs, Hv, Z.eqb_refl. reflexivity.
Qed.

End InverseAttacks.

Lemma pawnInvAttacks_has_witness :
  SquareSet.has (@pawnInvAttacks xiangqiAttacks red 54) 45 = true.
Proof.
  apply (proj2 (@pawnInvAttacks_has xiangqiAttacks red 54 45)).
  split; [vm_compute; reflexivity|]. split; [vm_compute; reflexivity|]. left. reflexivity.
Defined.

Lemma horseInvAttacks_has_witness :
  SquareSet.has (@horseInvAttacks xiangqiAttacks 40 SquareSet.empty) 21 = true.
Proof.
  apply (proj2 (@horseInvAttacks_has xiangqiAttacks 40 SquareSet.empty 21)).
  split; [vm_compute; reflexivity|]. split; [vm_compute; reflexivity|].
  exists (-19), (-10). split; [left; reflexivity|]. split; vm_compute; reflexivity.
Defined.

(** ** Equal positions *)

Section BoardViews.

Variable b : Board.
Hypothesis Hinv : Board_inv b.

Lemma byColor_get (c : Color) (sq : Square) :
  SquareSet.has (Board.byColor b c) sq
  = match Board.get b sq with
    | Some q => Color_eqb (color q) c
    | None => false
    end.
Proof.
  destruct (Board.get b sq) as [q|] eqn:Hg.
  - apply (get_Some b Hinv) in Hg. destruct Hg as [Hc _].
    destruct (Color_eqb (color q) c) eqn:He.
    + apply Color_eqb_eq in He. subst c. exact Hc.
    + destruct (SquareSet.has (Board.byColor b c) sq) eqn:Hx; [|reflexivity].
      pose proof (inv_color_excl b Hinv sq _ _ Hc Hx) as Heq.
      apply Color_eqb_eq in Heq. congruence.
  - apply (get_None_color b Hinv). exact Hg.
Qed.

Lemma byRole_get_eq (r : Role) (sq : Square) :
  SquareSet.has (Board.byRole b r) sq
  = match Board.get b sq with
    | Some q => Role_eqb (role q) r
    | None => false
    end.
Proof.
  destruct (Board.get b sq) as [q|] eqn:Hg.
  - apply (get_Some b Hinv) in Hg. destruct Hg as [_ Hr].
    destruct (Role_eqb (role q) r) eqn:He.
    + apply Role_eqb_eq in He. subst r. exact Hr.
    + destruct (SquareSet.has (Board.byRole b r) sq) eqn:Hx; [|reflexivity].
      pose proof (inv_role_excl b Hinv sq _ _ Hr Hx) as Heq.
      apply Role_eqb_eq in Heq. congruence.
  - apply (get_None_role b Hinv). exact Hg.
Qed.

End BoardViews.

(** X19. [equalsIgnoreMoves] compares pieces and side to move and nothing else: on
    well-formed boards it holds exactly when the two positions have the same
    side to move and the same piece, or none, on every square; the counters
    play no part. *)
Theorem equalsIgnoreMoves_iff (l r : Position) :
  Board.wf (board l) = true -> Board.wf (board r) = true ->
  (equalsIgnoreMoves l r = true
   <-> turn l = turn r /\ forall sq, Board.get (board l) sq = Board.get (board r) sq).
Proof.
  intros Hl Hr. pose proof (Board_wf_inv _ Hl) as Il. pose proof (Board_wf_inv _ Hr) as Ir.
  unfold equalsIgnoreMoves, Board.boardEquals, SquareSet.equals.
  rewrite !andb_true_iff, Color_eqb_eq, !forallb_forall, Z.eqb_eq. split.
  - intros [[[_ Hc] Hro] Ht]. split; [exact Ht|]. intros sq. apply get_ext.
    + intros c. rewrite (proj1 (Z.eqb_eq _ _) (Hc c (In_COLORS c))). reflexivity.
    + intros x. rewrite (proj1 (Z.eqb_eq _ _) (Hro x (In_ROLES x))). reflexivity.
  - intros [Ht Hg]. split; [split; [split|]|exact Ht].
    + apply wf_ext; [apply (inv_wf_occupied _ Il) | apply (inv_wf_occupied _ Ir)|].
      intros sq. rewrite (get_occupied _ Il), (get_occupied _ Ir), Hg. reflexivity.
    + intros c _. apply Z.eqb_eq.
      apply wf_ext; [apply (inv_wf_color _ Il) | apply (inv_wf_color _ Ir)|].
      intros sq. rewrite (byColor_get _ Il), (byColor_get _ Ir), Hg. reflexivity.
    + intros x _. apply Z.eqb_eq.
      apply wf_ext; [apply (inv_wf_role _ Il) | apply (inv_wf_role _ Ir)|].
      intros sq. rewrite (byRole_get_eq _ Il), (byRole_get_eq _ Ir), Hg. reflexivity.
Qed.

Lemma equalsIgnoreMoves_iff_witness :
  equalsIgnoreMoves startPosition (mkPosition (board startPosition) red 30 17) = true.
Proof.
  assert (Hwf : Board.wf (board startPosition) = true) by (vm_compute; reflexivity).
  apply (proj2 (equalsIgnoreMoves_iff startPosition
                  (mkPosition (board startPosition) red 30 17) Hwf Hwf)).
  cbn [board turn]. split; [reflexivity|]. intros sq. reflexivity.
Defined.

(** ** Counting pieces *)

Lemma filter_length_remove {A : Type} (f g : A -> bool) (l : list A) (k : A) :
  NoDup l -> In k l -> f k = true -> g k = false ->
  (forall x, x <> k -> g x = f x) ->
  S (length (filter g l)) = length (filter f l).
Proof.
  intros Hnd Hin Hf Hg Hext. induction l as [|a l IH]; [destruct Hin|].
  inversion Hnd as [|? ? Hnotin Hnd']; subst. cbn [filter].
  destruct Hin as [->|Hin].
  - rewrite Hf, Hg. cbn [length]. f_equal. f_equal.
    apply filter_ext_in. intros x Hx. apply Hext. intros ->. contradiction.
  - assert (Hak : a <> k) by (intros ->; contradiction).
    rewrite (Hext a Hak). destruct (f a); cbn [length]; rewrite <- (IH Hnd' Hin);
      reflexivity.
Qed.

Lemma size_without (s : SquareSet) (k : Square) :
  SquareSet.has s k = true ->
  SquareSet.size (SquareSet.without s k) = SquareSet.size s - 1.
Proof.
  intros Hk. unfold SquareSet.size, SquareSet.squares.
  rewrite <- (filter_length_remove (SquareSet.has s) (SquareSet.has (SquareSet.without s k))
                SquareSet.allSquares k NoDup_allSquares).
  - lia.
  - apply In_allSquares. exact (has_valid _ _ Hk).
  - exact Hk.
  - rewrite has_without, Z.eqb_refl. apply andb_false_r.
  - intros x Hx. rewrite has_without.
    replace (x =? k) with false by (symmetry; apply Z.eqb_neq; exact Hx).
    apply andb_true_r.
Qed.

Lemma size_with (s : SquareSet) (k : Square) :
  SquareSet.validSquare k = true -> SquareSet.has s k = false ->
  SquareSet.size (SquareSet.with_ s k) = SquareSet.size s + 1.
Proof.
  intros Hv Hk. unfold SquareSet.size, SquareSet.squares.
  rewrite <- (filter_length_remove (SquareSet.has (SquareSet.with_ s k)) (SquareSet.has s)
                SquareSet.allSquares k NoDup_allSquares).
  - lia.
  - apply In_allSquares. exact Hv.
  - rewrite has_with, Hv, Z.eqb_refl. reflexivity.
  - exact Hk.
  - intros x Hx. rewrite has_with.
    replace (x =? k) with false by (symmetry; apply Z.eqb_neq; exact Hx).
    rewrite andb_false_r. reflexivity.
Qed.

Lemma take_occupied_eq (b : Board) (s : Square) :
  Board.occupied (snd (Board.take b s))
  = match Board.get b s with
    | Some _ => SquareSet.without (Board.occupied b) s
    | None => Board.occupied b
    end.
Proof. unfold Board.take. destruct (Board.get b s); reflexivity. Qed.

Lemma set_occupied_eq (b : Board) (d : Square) (p : Piece) :
  Board.occupied (snd (Board.set b d p))
  = SquareSet.with_ (Board.occupied (snd (Board.take b d))) d.
Proof. unfold Board.set. destruct (Board.take b d). reflexivity. Qed.

Lemma take_size (b : Board) (s : Square) :
  Board_inv b ->
  SquareSet.size (Board.occupied (snd (Board.take b s)))
  = SquareSet.size (Board.occupied b)
    - match Board.get b s with Some _ => 1 | None => 0 end.
Proof.
  intros Hinv. rewrite take_occupied_eq. pose proof (get_occupied b Hinv s) as Ho.
  destruct (Board.get b s); [|lia]. apply size_without. exact Ho.
Qed.

Lemma set_size (b : Board) (d : Square) (p : Piece) :
  Board_inv b -> SquareSet.validSquare d = true ->
  SquareSet.size (Board.occupied (snd (Board.set b d p)))
  = SquareSet.size (Board.occupied b)
    + match Board.get b d with Some _ => 0 | None => 1 end.
Proof.
  intros Hinv Hd. rewrite set_occupied_eq, size_with.
  - rewrite (take_size b d Hinv). destruct (Board.get b d); lia.
  - exact Hd.
  - rewrite (take_occupied b Hinv), Z.eqb_refl. apply andb_false_r.
Qed.

(** X3. [play] conserves material: on a well-formed board and with a
    destination on the grid, the number of pieces after [play] is the number
    before, less one exactly when a piece standing on a destination other
    than the origin is captured; without a piece on the origin nothing
    changes. *)
Theorem play_piece_count (P : Position) (m : Move) :
  Board.wf (board P) = true ->
  SquareSet.validSquare (to m) = true ->
  SquareSet.size (Board.occupied (board (play P m)))
  = SquareSet.size (Board.occupied (board P))
    - match Board.get (board P) (from m) with
      | None => 0
      | Some _ =>
          if to m =? from m then 0
          else match Board.get (board P) (to m) with Some _ => 1 | None => 0 end
      end.
Proof.
  intros Hwf Hd. pose proof (Board_wf_inv _ Hwf) as Hinv. rewrite play_board.
  pose proof (take_size (board P) (from m) Hinv) as Ht.
  destruct (Board.get (board P) (from m)) as [piece|] eqn:Hg; [|lia].
  unfold movedBoard.
  rewrite (set_size _ (to m) piece (take_inv _ Hinv (from m)) Hd), Ht.
  rewrite (get_take _ Hinv).
  destruct (to m =? from m); [lia|].
  destruct (Board.get (board P) (to m)); lia.
Qed.

Lemma play_piece_count_witness :
  SquareSet.size (Board.occupied (board (play startPosition (mkMove 19 82)))) = 31.
Proof.
  rewrite (play_piece_count startPosition (mkMove 19 82)); vm_compute; reflexivity.
Defined.

(** ** Setups and counters *)

Lemma fromSetup_mk {G : Attacks} (b : Board) (t : Color) (h f : Z) :
  fromSetup (Setup.mk b t h f)
  = match validate (mkPosition b t h f) with
    | Ok _ => Ok (mkPosition b t h f)
    | Err e => Err e
    end.
Proof.
  rewrite fromSetup_result. unfold setupUnchecked.
  cbn [Setup.board Setup.turn Setup.halfmoves Setup.fullmoves]. rewrite clone_eq.
  reflexivity.
Qed.

(** X8. Validation of a setup never reads the counters: [fromSetup] gives the
    same error, or succeeds, whatever the counters are, and on success the
    position carries the counters of the setup unchanged, out of range or
    not. *)
Theorem fromSetup_ignores_counters {G : Attacks} (b : Board) (t : Color) (h f h' f' : Z) :
  match fromSetup (Setup.mk b t h f) with
  | Ok Q =>
      Q = mkPosition b t h f
      /\ fromSetup (Setup.mk b t h' f') = Ok (mkPosition b t h' f')
  | Err e => fromSetup (Setup.mk b t h' f') = Err e
  end.
Proof.
  pose proof (validate_counters b t h f h' f') as Ev.
  pose proof (fromSetup_mk b t h f) as E1.
  pose proof (fromSetup_mk b t h' f') as E2.
  revert Ev E1 E2.
  generalize (fromSetup (Setup.mk b t h f)).
  generalize (fromSetup (Setup.mk b t h' f')).
  generalize (validate (mkPosition b t h f)).
  generalize (validate (mkPosition b t h' f')).
  intros v' v r' r Ev E1 E2. subst v' r r'.
  destruct v; [split|]; reflexivity.
Qed.
